(** * ATLAS fusion model: position sizing, backtests and metrics

    A shallow embedding of the numerical core of the repository:

    - [calculate_position_size] and the column computations of [backtest]
      (fusion_model_backtest.py);
    - [MetricsCalculator] and the loop of [BacktestEngine.backtest]
      (.ipynb_checkpoints/fusion_model_test-checkpoint.py, the saved copy
      of fusion_model_test.py).

    Numbers.  The Python code computes on IEEE doubles.  The embedding is
    the usual idealisation over the real numbers: a finite float is a real
    [R], arithmetic on finite values is exact, and the one place where
    finite inputs leave the finite range, a division by zero (and the mean
    of an empty array, which numpy computes as 0/0), is kept explicit: a
    computed value is an [fval], [Some x] for a finite value and [None] for
    a non-finite one.  Rounding, overflow and underflow are outside the
    model, except in [Binary64], where the value at risk and its tail mean
    are evaluated on doubles.  Exceptions are explicit too: a function
    that can raise returns a [result]. *)

From Stdlib Require Import Reals Lra Lia List Arith ZArith Sorted.
From Stdlib Require PrimFloat Uint63.
Import ListNotations.

Open Scope R_scope.

(** ** Computed values and exceptions *)

Module Np.

(** A computed float: [Some x] is the finite value [x], [None] a non-finite
    value.  In the functions below a non-finite value is either the [nan]
    that pandas writes into a shifted column, the mean of an empty array,
    or the quotient of a division by zero; every operation applied to it
    (sum, difference, product, a quotient by a finite value, [abs], [sqrt],
    [maximum]) is non-finite again. *)
Definition fval : Type := option R.

Definition lift1 (f : R -> R) (x : fval) : fval :=
  match x with
  | Some a => Some (f a)
  | None => None
  end.

Definition lift2 (f : R -> R -> R) (x y : fval) : fval :=
  match x, y with
  | Some a, Some b => Some (f a b)
  | _, _ => None
  end.

Definition fadd : fval -> fval -> fval := lift2 Rplus.
Definition fsub : fval -> fval -> fval := lift2 Rminus.
Definition fmul : fval -> fval -> fval := lift2 Rmult.
Definition fabs : fval -> fval := lift1 Rabs.
Definition fmax : fval -> fval -> fval := lift2 Rmax.

(** [x / y]: numpy does not raise on a zero divisor, it yields [inf] or
    [nan]. *)
Definition fdiv (x y : fval) : fval :=
  match x, y with
  | Some a, Some b => if Req_dec_T b 0 then None else Some (a / b)
  | _, _ => None
  end.

(** [np.sqrt]: [nan] below zero. *)
Definition fsqrt (x : fval) : fval :=
  match x with
  | Some a => if Rlt_dec a 0 then None else Some (sqrt a)
  | None => None
  end.

(** Python exceptions the modelled code can raise. *)
Inductive exn : Type :=
| IndexError
| ValueError
| ZeroDivisionError.

Inductive result (A : Type) : Type :=
| Ok (a : A)
| Raise (e : exn).

Arguments Ok {A} a.
Arguments Raise {A} e.

Definition bind {A B : Type} (m : result A) (k : A -> result B) : result B :=
  match m with
  | Ok a => k a
  | Raise e => Raise e
  end.

End Np.

Import Np.

Notation "x <- m ;; k" := (bind m (fun x => k))
  (at level 61, m at next level, right associativity).

(** ** fusion_model_backtest.py: the position sizer *)

(** [np.clip(a, lo, hi)] is [minimum(maximum(a, lo), hi)]. *)
Definition np_clip (a lo hi : R) : R := Rmin (Rmax a lo) hi.

(** [calculate_position_size(predicted_return, max_position)].  The
    denominator [1 + exp(-r)] is above 1, so no division by zero arises and
    the function stays within the reals. *)
Definition calculate_position_size (predicted_return max_position : R) : R :=
  let position :=
    2 * max_position * (1 / (1 + exp (- predicted_return)) - 0.5) in
  np_clip position (- max_position) max_position.

(** The words of the specification, to compare the code with: the logistic
    sigmoid and the clamp to an interval. *)
Definition sigma (r : R) : R := 1 / (1 + exp (- r)).

Definition clamp (lo hi x : R) : R :=
  if Rlt_dec x lo then lo else if Rlt_dec hi x then hi else x.

Definition spec_position (r m : R) : R :=
  clamp (- m) m (2 * m * (sigma r - 0.5)).


(** ** Arrays *)

(** One row of a predictions table: the date (the index of the frame in
    fusion_model_test.py, the [Date] column in fusion_model_backtest.py),
    the predicted and the actual value.  Inputs are finite. *)
Record Row : Type := mkRow {
  Date : Z;
  Predicted : R;
  Actual : R
}.

Fixpoint map2 {A B C : Type} (f : A -> B -> C) (xs : list A) (ys : list B)
  : list C :=
  match xs, ys with
  | x :: xs', y :: ys' => f x y :: map2 f xs' ys'
  | _, _ => []
  end.

(** An elementwise numpy operation on two one-dimensional arrays: equal
    shapes combine pointwise, an array of one element is broadcast along
    the other, any other pair of shapes raises [ValueError]. *)
Definition broadcast2 {A B C : Type} (f : A -> B -> C)
  (xs : list A) (ys : list B) : result (list C) :=
  if Nat.eqb (length xs) (length ys) then Ok (map2 f xs ys)
  else match xs, ys with
       | [x], _ => Ok (map (f x) ys)
       | _, [y] => Ok (map (fun x => f x y) xs)
       | _, _ => Raise ValueError
       end.

(** The sum of a series of finite values. *)
Definition Rsum (xs : list R) : R := fold_right Rplus 0 xs.

(** [np.sum]: 0 on the empty array. *)
Definition np_sum (xs : list fval) : fval := fold_right fadd (Some 0) xs.

(** [np.mean]: the sum over the number of elements, hence [nan] (0/0) on
    the empty array. *)
Definition np_mean (xs : list fval) : fval :=
  fdiv (np_sum xs) (Some (INR (length xs))).

Definition fsquare (x : fval) : fval := fmul x x.

(** [np.std]: the root of the mean squared deviation from the mean. *)
Definition np_std (xs : list fval) : fval :=
  let m := np_mean xs in
  fsqrt (np_mean (map (fun x => fsquare (fsub x m)) xs)).

(** [np.diff]: [a[1:] - a[:-1]]. *)
Definition np_diff (xs : list fval) : list fval :=
  map2 fsub (tl xs) (removelast xs).

Definition Rsign (x : R) : R :=
  if Rlt_dec x 0 then -1 else if Rlt_dec 0 x then 1 else 0.

(** [np.sign]. *)
Definition fsign : fval -> fval := lift1 Rsign.

(** [==] on two floats: it is applied to signs of differences of finite
    inputs only; a [nan] is not equal to anything. *)
Definition feqb (x y : fval) : bool :=
  match x, y with
  | Some a, Some b => if Req_dec_T a b then true else false
  | _, _ => false
  end.

(** [np.mean] of a boolean array: the fraction of [True]. *)
Definition np_mean_bool (bs : list bool) : fval :=
  np_mean (map (fun b : bool => if b then Some 1 else Some 0) bs).

(** [np.cumprod]: running products, a non-finite element spoils the rest. *)
Fixpoint np_cumprod_from (acc : fval) (xs : list fval) : list fval :=
  match xs with
  | [] => []
  | x :: xs' => let acc' := fmul acc x in acc' :: np_cumprod_from acc' xs'
  end.

Definition np_cumprod (xs : list fval) : list fval :=
  np_cumprod_from (Some 1) xs.

(** [np.maximum.accumulate]: running maxima. *)
Fixpoint np_maximum_accumulate_from (acc : fval) (xs : list fval)
  : list fval :=
  match xs with
  | [] => []
  | x :: xs' =>
      let acc' := fmax acc x in acc' :: np_maximum_accumulate_from acc' xs'
  end.

Definition np_maximum_accumulate (xs : list fval) : list fval :=
  match xs with
  | [] => []
  | x :: xs' => x :: np_maximum_accumulate_from x xs'
  end.

(** [np.max]: a zero-size array has no maximum, numpy raises [ValueError]
    ("zero-size array to reduction operation maximum which has no
    identity"); a [nan] element makes the maximum [nan]. *)
Definition np_max (xs : list fval) : result fval :=
  match xs with
  | [] => Raise ValueError
  | x :: xs' => Ok (fold_left fmax xs' x)
  end.

(** [np.where(cond, xs, 0)]. *)
Definition np_where_else0 (cond : R -> bool) (xs : list R) : list fval :=
  map (fun x => if cond x then Some x else Some 0) xs.

Definition Rltb (x y : R) : bool := if Rlt_dec x y then true else false.
Definition Rleb (x y : R) : bool := if Rle_dec x y then true else false.

(** Ascending sort (insertion sort). *)
Fixpoint insert (x : R) (xs : list R) : list R :=
  match xs with
  | [] => [x]
  | y :: ys => if Rleb x y then x :: y :: ys else y :: insert x ys
  end.

Fixpoint sort (xs : list R) : list R :=
  match xs with
  | [] => []
  | x :: xs' => insert x (sort xs')
  end.

(** numpy's linear interpolation between two neighbours. *)
Definition lerp (a b t : R) : R := a + (b - a) * t.

(** [np.percentile(xs, q)] with the default method ("linear"): [q] is
    divided by 100 and must then lie in [0, 1]; the virtual index in the
    sorted array is [(n - 1) * q / 100], the result interpolates between
    the elements at its floor and at the next index, both kept inside the
    array.  The check on [q] comes first; an empty array then fails with
    [IndexError]. *)
Definition np_percentile (xs : list R) (q : R) : result fval :=
  let quantile := q / 100 in
  if andb (Rleb 0 quantile) (Rleb quantile 1) then
    match xs with
    | [] => Raise IndexError
    | x0 :: _ =>
        let n := length xs in
        let sorted := sort xs in
        let virtual_index := (INR n - 1) * quantile in
        let previous_index := Z.to_nat (Int_part virtual_index) in
        let next_index := Nat.min (previous_index + 1) (n - 1) in
        let previous_index := Nat.min previous_index (n - 1) in
        let gamma := virtual_index - IZR (Int_part virtual_index) in
        Ok (Some (lerp (nth previous_index sorted x0)
                       (nth next_index sorted x0) gamma))
    end
  else Raise ValueError.

(** ** fusion_model_backtest.py: the continuous-position backtest *)

Module FusionBacktest.

(** [Series.shift(1)]: every value moves one place down, the first place
    is filled with [nan], the last value is dropped. *)
Definition shift1 (xs : list fval) : list fval :=
  match xs with
  | [] => []
  | _ :: _ => None :: removelast xs
  end.

(** [series.iloc[0]]: [IndexError] on an empty series. *)
Definition iloc0 {A : Type} (xs : list A) : result A :=
  match xs with
  | [] => Raise IndexError
  | x :: _ => Ok x
  end.

(** [df.loc[df.index[0], col] = v]: [df.index[0]] raises [IndexError] on an
    empty frame; otherwise the first entry of the column is overwritten
    (the index comes from [read_csv], its labels are distinct). *)
Definition loc_set_first (xs : list fval) (v : fval) : result (list fval) :=
  match xs with
  | [] => Raise IndexError
  | _ :: xs' => Ok (v :: xs')
  end.

(** [Series.cumprod()]: pandas skips [nan]: the entry stays [nan] and the
    running product goes on without it. *)
Fixpoint pd_cumprod_from (acc : R) (xs : list fval) : list fval :=
  match xs with
  | [] => []
  | None :: xs' => None :: pd_cumprod_from acc xs'
  | Some x :: xs' => Some (acc * x) :: pd_cumprod_from (acc * x) xs'
  end.

Definition pd_cumprod (xs : list fval) : list fval := pd_cumprod_from 1 xs.

(** The columns the function adds to [df_recent], the frame it returns. *)
Record Columns : Type := mkColumns {
  position : list R;
  position_change : list fval;
  transaction_cost : list fval;
  daily_return : list fval;
  cumulative_return : list fval
}.

(** [backtest(...)], lines 42 to 56, on [df_recent], the rows of the
    results file within the common date range.  The benchmark and LSTM
    frames go through the same statements on their own columns and do not
    enter the strategy's columns; plots and printed figures are left out. *)
Definition backtest (df_recent : list Row) (cost max_position : R)
  : result Columns :=
  let position :=
    map (fun row => calculate_position_size (Predicted row) max_position)
        df_recent in
  let fposition := map (@Some R) position in
  let change := map2 fsub fposition (shift1 fposition) in
  first <- iloc0 fposition ;;
  position_change <- loc_set_first change first ;;
  let transaction_cost :=
    map (fun d => fmul (fabs d) (Some cost)) position_change in
  let gross :=
    map2 (fun p a => fdiv (fmul p (Some a)) (Some 100))
         fposition (map Actual df_recent) in
  let daily_return := map2 fsub gross transaction_cost in
  let cumulative_return :=
    map (fun x => fmul (fsub x (Some 1)) (Some 100))
        (pd_cumprod (map (fadd (Some 1)) daily_return)) in
  Ok {| position := position;
        position_change := position_change;
        transaction_cost := transaction_cost;
        daily_return := daily_return;
        cumulative_return := cumulative_return |}.

(** [df_recent['cumulative_return'].iloc[-1]]. *)
Definition final_cumulative_return (c : Columns) : fval :=
  last (cumulative_return c) None.

(** The position held before step [i]: nothing before the first step. *)
Definition prior_position (df_recent : list Row) (max_position : R) (i : nat)
  : R :=
  match i with
  | O => 0
  | S j => calculate_position_size
             (Predicted (nth j df_recent (mkRow 0 0 0))) max_position
  end.

(** The net returns as the specification states them: at each step the
    position times the percent return, less the cost rate times the size
    of the change from the position held before ([prior] at the first
    row). *)
Fixpoint net_returns (prior : R) (df_recent : list Row) (cost max_position : R)
  : list fval :=
  match df_recent with
  | [] => []
  | row :: rest =>
      let p := calculate_position_size (Predicted row) max_position in
      Some (p * (Actual row / 100) - Rabs (p - prior) * cost)
        :: net_returns p rest cost max_position
  end.

(** The product of [1 + r] over a series. *)
Definition growth (rs : list R) : R :=
  fold_right (fun r acc => (1 + r) * acc) 1 rs.

(** [(df_recent['date'].max() - df_recent['date'].min()).days], line 62,
    with the dates counted in days. *)
Definition span_days (df_recent : list Row) : Z :=
  match df_recent with
  | [] => 0
  | row :: rest =>
      (fold_right Z.max (Date row) (map Date rest)
       - fold_right Z.min (Date row) (map Date rest))%Z
  end.

(** Lines 63 to 65, up to the exponent [1 / years] of the annualised
    returns: a division of Python floats, which raises
    [ZeroDivisionError] when all rows carry one date.  The columns of
    lines 42 to 56 are written before; the frame is returned, and its
    figures printed, only past this point. *)
Definition annualisation_exponent (df_recent : list Row) : result R :=
  let days := span_days df_recent in
  let years := IZR days / 365 in
  if Req_dec_T years 0 then Raise ZeroDivisionError else Ok (1 / years).

(** A series used as its own signal, one row a day: the prediction is the
    return and the actual column holds [scale] times the return ([scale]
    is 100 when the column is in percent, as the code reads it, and 1 when
    it is the raw return). *)
Definition self_signal (scale : R) (rs : list R) : list Row :=
  map2 (fun day r => mkRow (Z.of_nat day) r (scale * r))
       (seq 0 (length rs)) rs.

(** The reading of "the backtest on the series as its own signal
    reproduces the compounded return" for the two-day series [[1; 1]]:
    [scale] is the unit of the actual column, [unit] the unit in which the
    cumulative return is compared. *)
Definition reproduces_growth (scale unit : R) : Prop :=
  exists cols,
    backtest (self_signal scale [1; 1]) 0 1 = Ok cols /\
    final_cumulative_return cols = Some (unit * (growth [1; 1] - 1)).

End FusionBacktest.

(** ** fusion_model_test.py: MetricsCalculator *)

Module MetricsCalculator.

Record PredictionMetrics : Type := mkPredictionMetrics {
  MSE : fval;
  RMSE : fval;
  MAE : fval;
  MAPE : fval;
  R2 : fval;
  Direction_Accuracy : fval
}.

(** [calculate_prediction_metrics(actual, predicted)]. *)
Definition calculate_prediction_metrics (actual predicted : list R)
  : result PredictionMetrics :=
  let a := map (@Some R) actual in
  let p := map (@Some R) predicted in
  err <- broadcast2 fsub a p ;;
  let mse := np_mean (map fsquare err) in
  let rmse := fsqrt mse in
  let mae := np_mean (map fabs err) in
  ratio <- broadcast2 fdiv err (map fabs a) ;;
  let mape := fmul (np_mean (map fabs ratio)) (Some 100) in
  let mean_actual := np_mean a in
  let ss_total := np_sum (map (fun x => fsquare (fsub x mean_actual)) a) in
  let ss_residual := np_sum (map fsquare err) in
  let r2 := fsub (Some 1) (fdiv ss_residual ss_total) in
  let direction_actual := map fsign (np_diff a) in
  let direction_pred := map fsign (np_diff p) in
  same <- broadcast2 feqb direction_actual direction_pred ;;
  let direction_accuracy := fmul (np_mean_bool same) (Some 100) in
  Ok {| MSE := mse;
        RMSE := rmse;
        MAE := mae;
        MAPE := mape;
        R2 := r2;
        Direction_Accuracy := direction_accuracy |}.

Record FinancialMetrics : Type := mkFinancialMetrics {
  Annual_Return : fval;
  Annual_Volatility : fval;
  Sharpe_Ratio : fval;
  Sortino_Ratio : fval;
  Max_Drawdown : fval;
  Calmar_Ratio : fval
}.

(** The guard [1e-6]. *)
Definition eps : R := 1e-6.

(** [calculate_financial_metrics(returns, risk_free_rate)].  The only
    statement that can raise is [np.max(drawdowns)]. *)
Definition calculate_financial_metrics (returns : list R) (risk_free_rate : R)
  : result FinancialMetrics :=
  let r := map (@Some R) returns in
  let root252 := Some (sqrt 252) in
  let annual_return := fmul (np_mean r) (Some 252) in
  let annual_volatility := fmul (np_std r) root252 in
  let excess_returns :=
    map (fun x => fsub x (Some (risk_free_rate / 252))) r in
  let sharpe_ratio :=
    fmul (fdiv (np_mean excess_returns)
               (fadd (np_std excess_returns) (Some eps)))
         root252 in
  let cumulative_returns := np_cumprod (map (fadd (Some 1)) r) in
  let rolling_max := np_maximum_accumulate cumulative_returns in
  let drawdowns :=
    map2 (fun m c => fdiv (fsub m c) m) rolling_max cumulative_returns in
  max_drawdown <- np_max drawdowns ;;
  let downside_returns := np_where_else0 (fun x => Rltb x 0) returns in
  let downside_std := fmul (np_std downside_returns) root252 in
  let sortino_ratio := fdiv annual_return (fadd downside_std (Some eps)) in
  let calmar_ratio := fdiv annual_return (fadd max_drawdown (Some eps)) in
  Ok {| Annual_Return := annual_return;
        Annual_Volatility := annual_volatility;
        Sharpe_Ratio := sharpe_ratio;
        Sortino_Ratio := sortino_ratio;
        Max_Drawdown := max_drawdown;
        Calmar_Ratio := calmar_ratio |}.

(** The entries of the risk dictionary computed by numpy.  [Skewness] and
    [Kurtosis] come from [scipy.stats] on the same array and enter no other
    entry; they are not modelled. *)
Record RiskMetrics : Type := mkRiskMetrics {
  VaR : fval;
  CVaR : fval;
  Upside_Volatility : fval;
  Downside_Volatility : fval
}.

(** [returns[returns <= var]]: a comparison with [nan] selects nothing. *)
Definition at_or_below (var : fval) (returns : list R) : list R :=
  match var with
  | Some v => filter (fun x => Rleb x v) returns
  | None => []
  end.

(** [calculate_risk_metrics(returns, confidence_level)]. *)
Definition calculate_risk_metrics (returns : list R) (confidence_level : R)
  : result RiskMetrics :=
  var <- np_percentile returns ((1 - confidence_level) * 100) ;;
  let cvar := np_mean (map (@Some R) (at_or_below var returns)) in
  let upside_returns := np_where_else0 (fun x => Rltb 0 x) returns in
  let downside_returns := np_where_else0 (fun x => Rltb x 0) returns in
  let upside_vol := fmul (np_std upside_returns) (Some (sqrt 252)) in
  let downside_vol := fmul (np_std downside_returns) (Some (sqrt 252)) in
  Ok {| VaR := var;
        CVaR := cvar;
        Upside_Volatility := upside_vol;
        Downside_Volatility := downside_vol |}.

(** The least element of a series ([np.min]; 0 stands in for the empty
    series, which has none). *)
Definition series_min (xs : list R) : R :=
  match xs with
  | [] => 0
  | x :: xs' => fold_right Rmin x xs'
  end.

End MetricsCalculator.

(** ** The risk metrics on an array that may hold nan *)

(** [ModelEvaluator._calculate_all_metrics] passes
    [results['Returns'].values], the [pct_change()] of the actual column,
    whose first entry is [nan].  Here an entry of the input is a finite
    value or [nan] ([None]). *)
Module ArraysWithNaN.

Import MetricsCalculator.

(** The values of an array when none of them is [nan]. *)
Fixpoint finite_values (xs : list fval) : option (list R) :=
  match xs with
  | [] => Some []
  | Some a :: xs' => option_map (cons a) (finite_values xs')
  | None :: _ => None
  end.

(** [np.percentile]: after the check on [q], a [nan] in the array makes
    the percentile [nan]. *)
Definition np_percentile_nan (xs : list fval) (q : R) : result fval :=
  match finite_values xs with
  | Some ys => np_percentile ys q
  | None =>
      let quantile := q / 100 in
      if andb (Rleb 0 quantile) (Rleb quantile 1) then Ok None
      else Raise ValueError
  end.

(** [returns[returns <= var]]: a [nan] entry compares false and is not
    selected; a [nan] bound selects nothing. *)
Definition at_or_below (var : fval) (returns : list fval) : list fval :=
  match var with
  | Some v =>
      filter (fun x => match x with
                       | Some a => Rleb a v
                       | None => false
                       end) returns
  | None => []
  end.

(** [np.where(cond, returns, 0)]: a [nan] entry compares false and is
    replaced by 0. *)
Definition np_where_else0_nan (cond : R -> bool) (xs : list fval)
  : list fval :=
  map (fun x => match x with
                | Some a => if cond a then Some a else Some 0
                | None => Some 0
                end) xs.

(** [calculate_risk_metrics(returns, confidence_level)]. *)
Definition calculate_risk_metrics (returns : list fval) (confidence_level : R)
  : result RiskMetrics :=
  var <- np_percentile_nan returns ((1 - confidence_level) * 100) ;;
  let cvar := np_mean (at_or_below var returns) in
  let upside_returns := np_where_else0_nan (fun x => Rltb 0 x) returns in
  let downside_returns := np_where_else0_nan (fun x => Rltb x 0) returns in
  let upside_vol := fmul (np_std upside_returns) (Some (sqrt 252)) in
  let downside_vol := fmul (np_std downside_returns) (Some (sqrt 252)) in
  Ok {| VaR := var;
        CVaR := cvar;
        Upside_Volatility := upside_vol;
        Downside_Volatility := downside_vol |}.

End ArraysWithNaN.

(** ** The value at risk and its tail mean on binary64 *)

(** Lines 117 and 118 on IEEE doubles, for finite input and a level in
    range: the place where rounding decides an order between two
    results. *)
Module Binary64.

Import PrimFloat.

Definition of_nat (n : nat) : float :=
  PrimFloat.of_uint63 (Uint63.of_Z (Z.of_nat n)).

Fixpoint insert (x : float) (xs : list float) : list float :=
  match xs with
  | [] => [x]
  | y :: ys =>
      if PrimFloat.leb x y then x :: y :: ys else y :: insert x ys
  end.

Fixpoint sort (xs : list float) : list float :=
  match xs with
  | [] => []
  | x :: xs' => insert x (sort xs')
  end.

(** The floor of a value in [[0, n]]. *)
Fixpoint floor_upto (n : nat) (v : float) : nat :=
  match n with
  | O => O
  | S k => if PrimFloat.leb (of_nat (S k)) v then S k else floor_upto k v
  end.

(** numpy's [_lerp]: from [a] upwards below the middle, from [b]
    downwards from the middle on. *)
Definition lerp (a b t : float) : float :=
  if PrimFloat.ltb t 0.5%float
  then PrimFloat.add a (PrimFloat.mul (PrimFloat.sub b a) t)
  else PrimFloat.sub b
         (PrimFloat.mul (PrimFloat.sub b a) (PrimFloat.sub 1%float t)).

(** [np.percentile] (linear method) of a non-empty array for a [q] in
    [[0, 100]], the case in which numpy raises nothing. *)
Definition np_percentile (xs : list float) (q : float) : float :=
  let quantile := PrimFloat.div q 100%float in
  let n := length xs in
  let sorted := sort xs in
  let virtual_index :=
    PrimFloat.mul (PrimFloat.sub (of_nat n) 1%float) quantile in
  let previous_index := floor_upto (n - 1) virtual_index in
  let next_index := Nat.min (previous_index + 1) (n - 1) in
  let gamma := PrimFloat.sub virtual_index (of_nat previous_index) in
  lerp (nth previous_index sorted 0%float)
       (nth next_index sorted 0%float) gamma.

(** [np.mean] of a short array: the sum in order, over the count. *)
Definition np_mean (xs : list float) : float :=
  PrimFloat.div (fold_left PrimFloat.add xs 0%float) (of_nat (length xs)).

Definition VaR (returns : list float) (confidence_level : float) : float :=
  np_percentile returns
    (PrimFloat.mul (PrimFloat.sub 1%float confidence_level) 100%float).

Definition CVaR (returns : list float) (confidence_level : float) : float :=
  let var := VaR returns confidence_level in
  np_mean (filter (fun x => PrimFloat.leb x var) returns).

#[local] Set Warnings "-inexact-float".

(** Three returns of 0.1 and the default confidence level, as the doubles
    nearest to them. *)
Definition three_tenths : list float := [0.1; 0.1; 0.1]%float.
Definition level_95 : float := 0.95%float.

End Binary64.

(** ** fusion_model_test.py: BacktestEngine, the direction-only backtest *)

Module BacktestEngine.

(** One entry of the [trades] list. *)
Record Trade : Type := mkTrade {
  date : Z;
  signal : nat;
  portfolio : fval;
  returns : fval
}.

(** The local variables of [backtest] that the loop updates. *)
Record State : Type := mkState {
  st_portfolio : fval;
  st_position : nat;
  st_trades : list Trade;
  st_daily_returns : list fval
}.

(** [predictions.iloc[i]] for [i >= 0]: [IndexError] out of range. *)
Definition iloc (predictions : list Row) (i : nat) : result Row :=
  match nth_error predictions i with
  | Some row => Ok row
  | None => Raise IndexError
  end.

(** The state before the loop: [portfolio = self.initial_capital],
    [position = 0], no trades, no returns. *)
Definition initial (initial_capital : R) : State :=
  {| st_portfolio := Some initial_capital;
     st_position := 0;
     st_trades := [];
     st_daily_returns := [] |}.

(** The body of the loop at index [i] (lines 225 to 246).  The division by
    the previous actual value is a numpy division: no exception on zero. *)
Definition step (predictions : list Row) (transaction_cost : R)
  (st : State) (i : nat) : result State :=
  cur <- iloc predictions i ;;
  prev <- iloc predictions (i - 1) ;;
  let signal := if Rltb (Predicted prev) (Predicted cur) then 1%nat else 0%nat in
  let price_change := Actual cur - Actual prev in
  let '(portfolio, position) :=
    if negb (Nat.eqb (st_position st) signal) then
      let cost := fmul (st_portfolio st) (Some transaction_cost) in
      (fsub (st_portfolio st) cost, signal)
    else (st_portfolio st, st_position st) in
  let '(portfolio, daily_returns) :=
    if negb (Nat.eqb position 0) then
      let returns := fdiv (Some price_change) (Some (Actual prev)) in
      let portfolio_change := fmul portfolio returns in
      (fadd portfolio portfolio_change, st_daily_returns st ++ [returns])
    else (portfolio, st_daily_returns st ++ [Some 0]) in
  Ok {| st_portfolio := portfolio;
        st_position := position;
        st_trades :=
          st_trades st ++
          [ {| date := Date cur;
               signal := signal;
               portfolio := portfolio;
               returns := last daily_returns None |} ];
        st_daily_returns := daily_returns |}.

(** A [for] loop whose body can raise. *)
Fixpoint for_each {S A : Type} (body : S -> A -> result S)
  (items : list A) (s : S) : result S :=
  match items with
  | [] => Ok s
  | a :: items' => s' <- body s a ;; for_each body items' s'
  end.

(** The state after the first [k] passes of the loop, [i = 1, ..., k]. *)
Definition state_after (predictions : list Row)
  (transaction_cost initial_capital : R) (k : nat) : result State :=
  for_each (step predictions transaction_cost) (seq 1 k)
           (initial initial_capital).

(** [backtest(predictions, transaction_cost)] up to the end of the loop,
    [for i in range(1, len(predictions))].  The summary dictionary built
    from the final state is not part of the model. *)
Definition backtest (predictions : list Row)
  (transaction_cost initial_capital : R) : result State :=
  state_after predictions transaction_cost initial_capital
              (length predictions - 1).

End BacktestEngine.

(** ** Further definitions *)

(** Pure counterparts on finite series, used to state what the array
    operations compute: the running maximum of a curve, the compounded
    curve of a return series, the greatest element. *)
Fixpoint running_max_from (acc : R) (cs : list R) : list R :=
  match cs with
  | [] => []
  | c :: cs' => Rmax acc c :: running_max_from (Rmax acc c) cs'
  end.

Definition running_max (cs : list R) : list R :=
  match cs with
  | [] => []
  | c :: cs' => c :: running_max_from c cs'
  end.

Fixpoint compound_from (acc : R) (rs : list R) : list R :=
  match rs with
  | [] => []
  | r :: rs' => acc * (1 + r) :: compound_from (acc * (1 + r)) rs'
  end.

Definition compound (rs : list R) : list R := compound_from 1 rs.

(** The successive differences of a series, the first one taken from
    [prior]. *)
Fixpoint changes_from (prior : R) (ps : list R) : list R :=
  match ps with
  | [] => []
  | p :: ps' => (p - prior) :: changes_from p ps'
  end.

Definition series_max (xs : list R) : R :=
  match xs with
  | [] => 0
  | x :: xs' => fold_right Rmax x xs'
  end.

(** ** fusion_model_backtest.py: figures derived from the columns *)

Module FusionStats.

Import FusionBacktest.

(** [x != 0] on an entry of a column: a [nan] differs from 0. *)
Definition nonzero (x : fval) : bool :=
  match x with
  | Some a => if Req_dec_T a 0 then false else true
  | None => true
  end.

(** [(df_recent['position_change'] != 0).sum()]. *)
Definition trade_counts (cols : Columns) : nat :=
  length (filter nonzero (position_change cols)).

(** [Series.sum()]: pandas skips [nan]; 0 on an empty series. *)
Definition pd_sum (xs : list fval) : R :=
  fold_right (fun x acc => match x with
                           | Some a => a + acc
                           | None => acc
                           end) 0 xs.

(** [df_recent['transaction_cost'].sum() * 100]. *)
Definition total_cost (cols : Columns) : R :=
  pd_sum (transaction_cost cols) * 100.

(** [Series.expanding().max()]: the greatest value seen so far; a [nan]
    is skipped, and the entry is [nan] while no value has been seen. *)
Fixpoint pd_expanding_max_from (acc : fval) (xs : list fval) : list fval :=
  match xs with
  | [] => []
  | x :: xs' =>
      let acc' := match acc, x with
                  | Some a, Some b => Some (Rmax a b)
                  | Some a, None => Some a
                  | None, _ => x
                  end in
      acc' :: pd_expanding_max_from acc' xs'
  end.

Definition pd_expanding_max (xs : list fval) : list fval :=
  pd_expanding_max_from None xs.

(** Python's [<] on two floats: false when either is [nan]. *)
Definition py_lt (x y : fval) : bool :=
  match x, y with
  | Some a, Some b => Rltb a b
  | _, _ => false
  end.

(** Python's builtin [min] over the values of a series: [ValueError] on
    an empty one; it keeps the first value and replaces it by a later one
    that compares smaller, so a leading [nan] stays and a later [nan] is
    passed over. *)
Definition py_min (xs : list fval) : result fval :=
  match xs with
  | [] => Raise ValueError
  | x :: xs' =>
      Ok (fold_left (fun cur y => if py_lt y cur then y else cur) xs' x)
  end.

(** The nested [calculate_max_drawdown(returns)] of [backtest], lines 76
    to 80, in percent and non-positive.  The only non-finite values here
    are [nan]: from a [nan] return, or from 0/0 where the curve has fallen
    to zero. *)
Definition calculate_max_drawdown (returns : list fval) : result fval :=
  let cumulative := pd_cumprod (map (fadd (Some 1)) returns) in
  let rolling_max := pd_expanding_max cumulative in
  let drawdowns :=
    map2 (fun c m => fsub (fdiv c m) (Some 1)) cumulative rolling_max in
  lowest <- py_min drawdowns ;;
  Ok (fmul lowest (Some 100)).

End FusionStats.

(** ** fusion_model_test.py: the drawdown of a portfolio curve *)

(** [BacktestEngine._calculate_max_drawdown(portfolio_values)], on a curve
    of finite values.  A zero running maximum makes the quotient
    non-finite, and so the maximum. *)
Definition _calculate_max_drawdown (portfolio_values : list R) : result fval :=
  let values := map (@Some R) portfolio_values in
  let running_max := np_maximum_accumulate values in
  let drawdown :=
    map2 (fun m v => fdiv (fsub m v) m) running_max values in
  np_max drawdown.

(** * Properties *)

(** ** Facts on the sigmoid *)

Lemma sigma_bounds (r : R) : 0 < sigma r < 1.
Proof.
  unfold sigma.
  pose proof (exp_pos (- r)) as He.
  split.
  - apply Rdiv_lt_0_compat; lra.
  - apply (Rmult_lt_reg_r (1 + exp (- r))); [lra|].
    unfold Rdiv. rewrite Rmult_assoc, Rinv_l by lra. lra.
Qed.

Lemma sigma_0 : sigma 0 = 0.5.
Proof.
  unfold sigma. rewrite Ropp_0, exp_0. lra.
Qed.

Lemma sigma_mono (r1 r2 : R) : r1 <= r2 -> sigma r1 <= sigma r2.
Proof.
  intros Hle. unfold sigma, Rdiv. rewrite !Rmult_1_l.
  pose proof (exp_pos (- r1)) as H1.
  pose proof (exp_pos (- r2)) as H2.
  apply Rinv_le_contravar; [lra|].
  destruct (Rle_lt_or_eq_dec _ _ Hle) as [Hlt | Heq].
  - assert (exp (- r2) < exp (- r1)) by (apply exp_increasing; lra). lra.
  - subst. lra.
Qed.

Lemma np_clip_clamp (lo hi x : R) : lo <= hi -> np_clip x lo hi = clamp lo hi x.
Proof.
  intros Hlh. unfold np_clip, clamp, Rmin, Rmax.
  destruct (Rlt_dec x lo), (Rlt_dec hi x);
    repeat (destruct (Rle_dec _ _)); lra.
Qed.

Lemma np_clip_id (lo hi x : R) : lo <= x <= hi -> np_clip x lo hi = x.
Proof.
  intros [H1 H2]. unfold np_clip, Rmin, Rmax.
  repeat (destruct (Rle_dec _ _)); lra.
Qed.

Lemma np_clip_range (lo hi x : R) : lo <= hi -> lo <= np_clip x lo hi <= hi.
Proof.
  intros Hlh. unfold np_clip, Rmin, Rmax.
  repeat (destruct (Rle_dec _ _)); lra.
Qed.

Lemma np_clip_mono (lo hi x y : R) :
  x <= y -> np_clip x lo hi <= np_clip y lo hi.
Proof.
  intros Hxy. unfold np_clip.
  apply Rle_min_compat_r. apply Rle_max_compat_r. exact Hxy.
Qed.

(** The raw position is already strictly inside the band, so the clip never
    alters it when [m] is positive. *)
Lemma position_unclipped (r m : R) :
  0 < m -> calculate_position_size r m = 2 * m * (sigma r - 0.5).
Proof.
  intros Hm. unfold calculate_position_size. cbv zeta.
  fold (sigma r).
  pose proof (sigma_bounds r) as [Hs0 Hs1].
  apply np_clip_id. split; nra.
Qed.

(** C3.  For every predicted return [r] and every maximum position
    [m > 0], the position sizer returns [2 m (sigma r - 0.5)] clamped to
    [[-m, m]], with [sigma r = 1 / (1 + exp (- r))]; the result lies in
    [[-m, m]], and the position at [r = 0] is exactly 0. *)
Theorem position_size_spec (r m : R) :
  0 < m ->
  calculate_position_size r m = spec_position r m /\
  - m <= calculate_position_size r m <= m /\
  calculate_position_size 0 m = 0.
Proof.
  intros Hm. repeat split.
  - unfold calculate_position_size, spec_position. cbv zeta.
    fold (sigma r). apply np_clip_clamp. lra.
  - apply np_clip_range. lra.
  - apply np_clip_range. lra.
  - rewrite position_unclipped by exact Hm. rewrite sigma_0. lra.
Qed.

Lemma position_size_spec_witness :
  0 < 0.5 /\
  (calculate_position_size 1 0.5 = spec_position 1 0.5 /\
   - (0.5) <= calculate_position_size 1 0.5 <= 0.5 /\
   calculate_position_size 0 0.5 = 0).
Proof.
  split; [lra | apply (position_size_spec 1 0.5); lra].
Defined.

(** C7.  For a fixed maximum position [m > 0] the position sizer is
    monotonically non-decreasing in the predicted return. *)
Theorem position_size_monotone (m r1 r2 : R) :
  0 < m ->
  r1 <= r2 ->
  calculate_position_size r1 m <= calculate_position_size r2 m.
Proof.
  intros Hm Hle. unfold calculate_position_size. cbv zeta.
  apply np_clip_mono. fold (sigma r1) (sigma r2).
  pose proof (sigma_mono r1 r2 Hle). nra.
Qed.

Lemma position_size_monotone_witness :
  0 < 0.5 /\ 1 <= 2 /\
  calculate_position_size 1 0.5 <= calculate_position_size 2 0.5.
Proof.
  split; [lra | split; [lra | apply (position_size_monotone 0.5 1 2); lra]].
Defined.

(** ** The continuous-position backtest *)

Section ContinuousBacktest.

Import FusionBacktest.

Variables cost max_position : R.

Let size (row : Row) : R :=
  calculate_position_size (Predicted row) max_position.

Lemma fdiv_100 (x : R) : fdiv (Some x) (Some 100) = Some (x / 100).
Proof.
  unfold fdiv. destruct (Req_dec_T 100 0); [lra | reflexivity].
Qed.

(** The difference of a column and its shift, away from the first row. *)
Lemma change_after_first (xs : list R) (x0 : R) :
  map2 fsub (map (@Some R) xs) (removelast (Some x0 :: map (@Some R) xs)) =
  map2 (fun a b => Some (a - b)) xs (x0 :: xs).
Proof.
  revert x0. induction xs as [| a t IH]; intros x0.
  - reflexivity.
  - change (removelast (Some x0 :: map (@Some R) (a :: t)))
      with (Some x0 :: removelast (Some a :: map (@Some R) t)).
    cbn [map map2]. rewrite IH. reflexivity.
Qed.

Lemma daily_after_first (rows : list Row) (prior : R) :
  map2 fsub
    (map2 (fun p a => fdiv (fmul p (Some a)) (Some 100))
          (map (@Some R) (map size rows)) (map Actual rows))
    (map (fun d => fmul (fabs d) (Some cost))
         (map2 (fun a b => Some (a - b)) (map size rows)
               (prior :: map size rows))) =
  net_returns prior rows cost max_position.
Proof.
  revert prior. induction rows as [| row rest IH]; intros prior.
  - reflexivity.
  - cbn [map map2 net_returns]. rewrite IH. fold (size row).
    f_equal. cbn [fmul fabs lift1 lift2]. rewrite fdiv_100.
    cbn [fsub lift2]. f_equal. lra.
Qed.

Lemma backtest_daily_return (row : Row) (rest : list Row) :
  exists cols,
    backtest (row :: rest) cost max_position = Ok cols /\
    daily_return cols = net_returns 0 (row :: rest) cost max_position.
Proof.
  eexists. split.
  - unfold backtest. cbn [map iloc0 bind shift1 loc_set_first map2].
    reflexivity.
  - cbn [daily_return map map2 net_returns].
    f_equal.
    + cbn [fmul fabs lift1 lift2]. rewrite fdiv_100. cbn [fsub lift2].
      rewrite Rminus_0_r. f_equal. lra.
    + rewrite change_after_first. apply daily_after_first.
Qed.

Lemma net_returns_length (rows : list Row) (prior : R) :
  length (net_returns prior rows cost max_position) = length rows.
Proof.
  revert prior. induction rows as [| row rest IH]; intros prior; cbn.
  - reflexivity.
  - now rewrite IH.
Qed.

Lemma net_returns_nth (rows : list Row) (prior : R) (i : nat) (row : Row) :
  nth_error rows i = Some row ->
  nth_error (net_returns prior rows cost max_position) i =
  Some (Some (size row * (Actual row / 100)
              - Rabs (size row
                      - match i with
                        | O => prior
                        | S j => size (nth j rows (mkRow 0 0 0))
                        end) * cost)).
Proof.
  revert prior i. induction rows as [| r rest IH]; intros prior i Hi.
  - destruct i; discriminate.
  - destruct i as [| j].
    + cbn in Hi. injection Hi as ->. reflexivity.
    + cbn [nth_error net_returns] in *.
      rewrite (IH _ j Hi). destruct j; reflexivity.
Qed.

End ContinuousBacktest.

(** C1.  In the continuous-position backtest, for every non-empty sequence
    of rows, every cost rate [c] and every maximum position [m], the net
    return recorded at step [i] is [p_i * (actual_i / 100) - |p_i - p_{i-1}| * c],
    where [p_i] is the position sizer's output on [predicted_i] and the
    position before the first step is 0. *)
Theorem backtest_net_return (df_recent : list Row) (c m : R) :
  df_recent <> [] ->
  exists cols,
    FusionBacktest.backtest df_recent c m = Ok cols /\
    length (FusionBacktest.daily_return cols) = length df_recent /\
    forall i row,
      nth_error df_recent i = Some row ->
      nth_error (FusionBacktest.daily_return cols) i =
      Some (Some (calculate_position_size (Predicted row) m * (Actual row / 100)
                  - Rabs (calculate_position_size (Predicted row) m
                          - FusionBacktest.prior_position df_recent m i) * c)).
Proof.
  intros Hne. destruct df_recent as [| row rest]; [congruence |].
  destruct (backtest_daily_return c m row rest) as [cols [Hrun Hdaily]].
  exists cols. split; [exact Hrun |]. rewrite Hdaily. split.
  - apply net_returns_length.
  - intros i r Hi. rewrite (net_returns_nth c m _ 0 i r Hi).
    destruct i; reflexivity.
Qed.

Lemma backtest_net_return_witness :
  [mkRow 0 1 2] <> [] /\
  exists cols,
    FusionBacktest.backtest [mkRow 0 1 2] 0.002 0.5 = Ok cols /\
    length (FusionBacktest.daily_return cols) = length [mkRow 0 1 2] /\
    forall i row,
      nth_error [mkRow 0 1 2] i = Some row ->
      nth_error (FusionBacktest.daily_return cols) i =
      Some (Some (calculate_position_size (Predicted row) 0.5
                  * (Actual row / 100)
                  - Rabs (calculate_position_size (Predicted row) 0.5
                          - FusionBacktest.prior_position
                              [mkRow 0 1 2] 0.5 i) * 0.002)).
Proof.
  split; [discriminate |].
  apply (backtest_net_return [mkRow 0 1 2] 0.002 0.5).
  discriminate.
Defined.

(** ** The cumulative return without costs *)

Section ZeroCost.

Import FusionBacktest.

Variable max_position : R.

Let gain (row : Row) : R :=
  calculate_position_size (Predicted row) max_position * (Actual row / 100).

Lemma net_returns_zero_cost (rows : list Row) (prior : R) :
  net_returns prior rows 0 max_position = map (@Some R) (map gain rows).
Proof.
  revert prior. induction rows as [| row rest IH]; intros prior.
  - reflexivity.
  - cbn [net_returns map]. rewrite IH. unfold gain at 2.
    do 2 f_equal. lra.
Qed.

Lemma final_of_cumprod (xs : list R) (acc : R) :
  xs <> [] ->
  last (map (fun x => fmul (fsub x (Some 1)) (Some 100))
            (pd_cumprod_from acc
               (map (fadd (Some 1)) (map (@Some R) xs)))) None =
  Some ((acc * growth xs - 1) * 100).
Proof.
  revert acc. induction xs as [| x t IH]; intros acc Hne; [congruence |].
  destruct t as [| y t'].
  - cbn. do 2 f_equal. lra.
  - specialize (IH (acc * (1 + x)) ltac:(discriminate)).
    cbn [map fadd lift2 pd_cumprod_from] in *.
    cbn [last]. cbn [last] in IH.
    etransitivity; [exact IH |].
    do 2 f_equal. cbn [growth fold_right]. fold (growth t'). 
    unfold growth. cbn [fold_right]. lra.
Qed.

Lemma zero_cost_final (rows : list Row) :
  rows <> [] ->
  exists cols,
    backtest rows 0 max_position = Ok cols /\
    final_cumulative_return cols =
    Some ((growth (map gain rows) - 1) * 100).
Proof.
  intros Hne. destruct rows as [| row rest]; [congruence |].
  destruct (backtest_daily_return 0 max_position row rest)
    as [cols [Hrun Hdaily]].
  exists cols. split; [exact Hrun |].
  assert (Hcum : cumulative_return cols =
                 map (fun x => fmul (fsub x (Some 1)) (Some 100))
                     (pd_cumprod (map (fadd (Some 1)) (daily_return cols)))).
  { unfold backtest in Hrun. cbn [map iloc0 bind loc_set_first shift1 map2] in Hrun.
    injection Hrun as <-. reflexivity. }
  unfold final_cumulative_return. rewrite Hcum, Hdaily.
  rewrite net_returns_zero_cost. unfold pd_cumprod.
  rewrite final_of_cumprod by (cbn; discriminate).
  do 2 f_equal. lra.
Qed.

End ZeroCost.

Lemma sigma_1_bounds : 2 / 3 < sigma 1 < 1.
Proof.
  split; [| apply sigma_bounds].
  unfold sigma.
  assert (He : 2 < exp 1) by (pose proof (exp_ineq1 1); lra).
  assert (Hinv : exp (Ropp 1) < 1 / 2).
  { rewrite exp_Ropp. unfold Rdiv. rewrite Rmult_1_l.
    apply Rinv_lt_contravar; lra. }
  pose proof (exp_pos (Ropp 1)) as Hpos.
  apply (Rmult_lt_reg_r (1 + exp (Ropp 1))); [lra |].
  unfold Rdiv. rewrite (Rmult_assoc 1), Rinv_l by lra. lra.
Qed.

Lemma reproduces_growth_inv (scale unit : R) :
  FusionBacktest.reproduces_growth scale unit ->
  ((1 + (2 * sigma 1 - 1) * scale / 100)
   * (1 + (2 * sigma 1 - 1) * scale / 100) - 1) * 100 = unit * 3.
Proof.
  intros [cols [Hrun Hfinal]].
  destruct (zero_cost_final 1 (FusionBacktest.self_signal scale [1; 1]))
    as [cols' [Hrun' Hfinal']]; [discriminate |].
  rewrite Hrun in Hrun'. injection Hrun' as <-.
  rewrite Hfinal in Hfinal'. injection Hfinal' as Heq.
  cbn in Heq. rewrite position_unclipped in Heq by lra.
  lra.
Qed.

(** C4, as stated, fails.  On the two-day series [[1; 1]] used as its own
    signal, with no cost and maximum position 1, the position on both days
    is [2 sigma(1) - 1], strictly between a third and one, and the
    cumulative return compounds that fraction of the actual value twice:
    it is not the compounded return of the series, 3 (300 percent),
    whether the actual column holds the return or the return in percent,
    and whether the result is read as a fraction or in percent. *)
Lemma self_signal_counterexample :
  ~ FusionBacktest.reproduces_growth 100 1 /\
  ~ FusionBacktest.reproduces_growth 100 100 /\
  ~ FusionBacktest.reproduces_growth 1 1 /\
  ~ FusionBacktest.reproduces_growth 1 100.
Proof.
  pose proof sigma_1_bounds as [Hlo Hhi].
  repeat split; intros H; apply reproduces_growth_inv in H; nra.
Qed.

Lemma span_days_positive (df_recent : list Row) :
  (0 < FusionBacktest.span_days df_recent)%Z ->
  df_recent <> [] /\
  FusionBacktest.annualisation_exponent df_recent
  = Ok (1 / (IZR (FusionBacktest.span_days df_recent) / 365)).
Proof.
  intros Hspan. split.
  - intros ->. cbn in Hspan. lia.
  - unfold FusionBacktest.annualisation_exponent. cbv zeta.
    apply IZR_lt in Hspan.
    destruct (Req_dec_T _ 0) as [Hz | _]; [| reflexivity].
    exfalso. unfold Rdiv in Hz. apply Rmult_integral in Hz.
    destruct Hz as [Hz | Hz]; [lra |].
    assert (/ 365 <> 0) by (apply Rinv_neq_0_compat; lra). contradiction.
Qed.

(** C4, amended.  On a frame that spans at least one day, so that the
    annualisation of line 65 does not fail, with no transaction cost and
    maximum position 1, the final cumulative return of the
    continuous-position backtest is, in percent, the compounded product of
    [1 + p_i * actual_i / 100] less one, where
    [p_i = 2 sigma(predicted_i) - 1] is the position the sizer takes: the
    series is scaled by the positions, not reproduced. *)
Theorem zero_cost_cumulative_return (df_recent : list Row) :
  (0 < FusionBacktest.span_days df_recent)%Z ->
  exists cols exponent,
    FusionBacktest.backtest df_recent 0 1 = Ok cols /\
    FusionBacktest.annualisation_exponent df_recent = Ok exponent /\
    FusionBacktest.final_cumulative_return cols =
    Some ((FusionBacktest.growth
             (map (fun row =>
                     (2 * sigma (Predicted row) - 1) * (Actual row / 100))
                  df_recent) - 1) * 100).
Proof.
  intros Hspan.
  destruct (span_days_positive df_recent Hspan) as [Hne Hexp].
  destruct (zero_cost_final 1 df_recent Hne) as [cols [Hrun Hfinal]].
  exists cols. eexists. split; [exact Hrun |]. split; [exact Hexp |].
  rewrite Hfinal.
  do 4 f_equal. apply map_ext. intros row.
  rewrite position_unclipped by lra. lra.
Qed.

Lemma zero_cost_cumulative_return_witness :
  Z.lt 0 (FusionBacktest.span_days (FusionBacktest.self_signal 100 [1; 1])) /\
  exists cols exponent,
    FusionBacktest.backtest (FusionBacktest.self_signal 100 [1; 1]) 0 1
    = Ok cols /\
    FusionBacktest.annualisation_exponent
      (FusionBacktest.self_signal 100 [1; 1]) = Ok exponent /\
    FusionBacktest.final_cumulative_return cols =
    Some ((FusionBacktest.growth
             (map (fun row =>
                     (2 * sigma (Predicted row) - 1) * (Actual row / 100))
                  (FusionBacktest.self_signal 100 [1; 1])) - 1) * 100).
Proof.
  assert (Hspan : Z.lt 0 (FusionBacktest.span_days
                            (FusionBacktest.self_signal 100 [1; 1])))
    by (cbn; lia).
  split; [exact Hspan |].
  exact (zero_cost_cumulative_return
           (FusionBacktest.self_signal 100 [1; 1]) Hspan).
Defined.

(** ** The direction-only backtest *)

Section DirectionOnly.

Import BacktestEngine.

Variable predictions : list Row.
Variables transaction_cost initial_capital : R.

Let after (k : nat) : result State :=
  state_after predictions transaction_cost initial_capital k.

Lemma for_each_app {S A : Type} (body : S -> A -> result S)
  (xs ys : list A) (s : S) :
  for_each body (xs ++ ys) s =
  (s' <- for_each body xs s ;; for_each body ys s').
Proof.
  revert s. induction xs as [| x xs IH]; intros s; cbn.
  - reflexivity.
  - destruct (body s x); cbn; [apply IH | reflexivity].
Qed.

Lemma state_after_S (k : nat) :
  after (S k) =
  (st <- after k ;; step predictions transaction_cost st (S k)).
Proof.
  unfold after, state_after. rewrite seq_S, for_each_app.
  destruct (for_each _ (seq 1 k) _); cbn; [| reflexivity].
  destruct (step _ _ _ _); reflexivity.
Qed.

(** What one pass of the loop does to the state. *)
Lemma step_spec (st : State) (i : nat) (prev cur : Row) :
  nth_error predictions (i - 1) = Some prev ->
  nth_error predictions i = Some cur ->
  exists st',
    step predictions transaction_cost st i = Ok st' /\
    let signal :=
      if Rlt_dec (Predicted prev) (Predicted cur) then 1%nat else 0%nat in
    let ret := fdiv (Some (Actual cur - Actual prev)) (Some (Actual prev)) in
    let paid :=
      if Nat.eq_dec (st_position st) signal then st_portfolio st
      else fsub (st_portfolio st)
                (fmul (st_portfolio st) (Some transaction_cost)) in
    st_position st' = signal /\
    st_portfolio st' =
      match signal with
      | O => paid
      | S _ => fadd paid (fmul paid ret)
      end /\
    st_trades st' =
      st_trades st ++
      [ {| date := Date cur;
           signal := signal;
           portfolio := st_portfolio st';
           returns := match signal with
                      | O => Some 0
                      | S _ => ret
                      end |} ].
Proof.
  intros Hprev Hcur. unfold step, iloc. rewrite Hprev, Hcur. cbn [bind].
  unfold Rltb.
  destruct (Rlt_dec (Predicted prev) (Predicted cur)) as [Hup | Hflat];
    destruct (Nat.eq_dec (st_position st) _) as [Heq | Hneq].
  - rewrite Heq. cbn. eexists. split; [reflexivity |].
    cbn. rewrite last_last. auto.
  - apply Nat.eqb_neq in Hneq. rewrite Hneq. cbn. eexists.
    split; [reflexivity |]. cbn. rewrite last_last. auto.
  - rewrite Heq. cbn. eexists. split; [reflexivity |].
    cbn. rewrite last_last. auto.
  - apply Nat.eqb_neq in Hneq. rewrite Hneq. cbn. eexists.
    split; [reflexivity |]. cbn. rewrite last_last. auto.
Qed.

Lemma rows_in_range (i : nat) :
  (1 <= i < length predictions)%nat ->
  exists prev cur,
    nth_error predictions (i - 1) = Some prev /\
    nth_error predictions i = Some cur.
Proof.
  intros Hi.
  destruct (nth_error predictions (i - 1)) as [prev |] eqn:Hprev.
  - destruct (nth_error predictions i) as [cur |] eqn:Hcur.
    + eauto.
    + apply nth_error_None in Hcur. lia.
  - apply nth_error_None in Hprev. lia.
Qed.

(** The loop never raises, and logs one trade per pass. *)
Lemma state_after_total (k : nat) :
  (k <= length predictions - 1)%nat ->
  exists st, after k = Ok st /\ length (st_trades st) = k.
Proof.
  induction k as [| k IH]; intros Hk.
  - eexists. split; reflexivity.
  - destruct IH as [st [Hst Hlen]]; [lia |].
    destruct (rows_in_range (S k)) as [prev [cur [Hprev Hcur]]]; [lia |].
    destruct (step_spec st (S k) prev cur Hprev Hcur)
      as [st' [Hstep [_ [_ Htrades]]]].
    exists st'. rewrite state_after_S, Hst. cbn [bind].
    split; [exact Hstep |].
    rewrite Htrades, length_app. cbn. lia.
Qed.

(** The log only grows: later states extend the trades of earlier ones. *)
Lemma trades_extend (k j : nat) (st st' : State) :
  (k + j <= length predictions - 1)%nat ->
  after k = Ok st ->
  after (k + j) = Ok st' ->
  exists more, st_trades st' = st_trades st ++ more.
Proof.
  revert st'. induction j as [| j IH]; intros st' Hk Hst Hst'.
  - rewrite Nat.add_0_r, Hst in Hst'. injection Hst' as <-.
    exists []. now rewrite app_nil_r.
  - rewrite Nat.add_succ_r in Hst'.
    destruct (state_after_total (k + j)) as [mid [Hmid _]]; [lia |].
    destruct (IH mid) as [more Hmore]; [lia | exact Hst | exact Hmid |].
    destruct (rows_in_range (S (k + j))) as [prev [cur [Hprev Hcur]]]; [lia |].
    destruct (step_spec mid (S (k + j)) prev cur Hprev Hcur)
      as [st'' [Hstep [_ [_ Htrades]]]].
    rewrite state_after_S, Hmid in Hst'. cbn [bind] in Hst'.
    rewrite Hstep in Hst'. injection Hst' as <-.
    eexists. rewrite Htrades, Hmore, <- app_assoc. reflexivity.
Qed.

End DirectionOnly.

(** C2.  In the direction-only backtest, at each step [i >= 1] the signal
    is 1 if [predicted_i > predicted_{i-1}] and 0 otherwise; when the held
    position differs from the signal, capital is reduced once by
    [capital * c]; with position 1, capital changes by
    [capital * (actual_i - actual_{i-1}) / actual_{i-1}]; with position 0
    the recorded daily return is exactly 0 and capital changes by the flip
    cost only.  The trade logged for step [i] carries that signal, capital
    and return. *)
Theorem direction_only_step (predictions : list Row) (c capital : R) (i : nat) :
  (1 <= i < length predictions)%nat ->
  exists prev cur before after final,
    nth_error predictions (i - 1) = Some prev /\
    nth_error predictions i = Some cur /\
    BacktestEngine.state_after predictions c capital (i - 1) = Ok before /\
    BacktestEngine.state_after predictions c capital i = Ok after /\
    BacktestEngine.backtest predictions c capital = Ok final /\
    let signal :=
      if Rlt_dec (Predicted prev) (Predicted cur) then 1%nat else 0%nat in
    let ret := fdiv (Some (Actual cur - Actual prev)) (Some (Actual prev)) in
    let paid :=
      if Nat.eq_dec (BacktestEngine.st_position before) signal
      then BacktestEngine.st_portfolio before
      else fsub (BacktestEngine.st_portfolio before)
                (fmul (BacktestEngine.st_portfolio before) (Some c)) in
    BacktestEngine.st_position after = signal /\
    BacktestEngine.st_portfolio after =
      match signal with
      | O => paid
      | S _ => fadd paid (fmul paid ret)
      end /\
    nth_error (BacktestEngine.st_trades final) (i - 1) =
      Some {| BacktestEngine.date := Date cur;
              BacktestEngine.signal := signal;
              BacktestEngine.portfolio := BacktestEngine.st_portfolio after;
              BacktestEngine.returns := match signal with
                                        | O => Some 0
                                        | S _ => ret
                                        end |}.
Proof.
  intros Hi.
  destruct (rows_in_range predictions i Hi) as [prev [cur [Hprev Hcur]]].
  destruct (state_after_total predictions c capital (i - 1))
    as [before [Hbefore Hlen]]; [lia |].
  destruct (step_spec predictions c before i prev cur Hprev Hcur)
    as [after [Hstep [Hpos [Hport Htrades]]]].
  assert (Hafter : BacktestEngine.state_after predictions c capital i
                   = Ok after).
  { replace i with (S (i - 1)) at 1 by lia.
    rewrite state_after_S, Hbefore. cbn [bind].
    replace (S (i - 1)) with i by lia. exact Hstep. }
  destruct (state_after_total predictions c capital (length predictions - 1))
    as [final [Hfinal _]]; [lia |].
  exists prev, cur, before, after, final.
  do 5 (split; [assumption |]).
  cbv zeta in *. split; [exact Hpos |]. split; [exact Hport |].
  destruct (trades_extend predictions c capital i
              (length predictions - 1 - i) after final) as [more Hmore].
  - lia.
  - exact Hafter.
  - replace (i + (length predictions - 1 - i))%nat
      with (length predictions - 1)%nat by lia.
    exact Hfinal.
  - rewrite Hmore, Htrades, <- app_assoc.
    rewrite nth_error_app2 by lia.
    rewrite Hlen, Nat.sub_diag. reflexivity.
Qed.

Lemma direction_only_step_witness :
  (1 <= 1 < length [mkRow 0 1 10; mkRow 1 2 11])%nat /\
  exists prev cur before after final,
    nth_error [mkRow 0 1 10; mkRow 1 2 11] (1 - 1) = Some prev /\
    nth_error [mkRow 0 1 10; mkRow 1 2 11] 1 = Some cur /\
    BacktestEngine.state_after [mkRow 0 1 10; mkRow 1 2 11]
      0.001 1000000 (1 - 1) = Ok before /\
    BacktestEngine.state_after [mkRow 0 1 10; mkRow 1 2 11]
      0.001 1000000 1 = Ok after /\
    BacktestEngine.backtest [mkRow 0 1 10; mkRow 1 2 11]
      0.001 1000000 = Ok final /\
    let signal :=
      if Rlt_dec (Predicted prev) (Predicted cur) then 1%nat else 0%nat in
    let ret := fdiv (Some (Actual cur - Actual prev)) (Some (Actual prev)) in
    let paid :=
      if Nat.eq_dec (BacktestEngine.st_position before) signal
      then BacktestEngine.st_portfolio before
      else fsub (BacktestEngine.st_portfolio before)
                (fmul (BacktestEngine.st_portfolio before) (Some 0.001)) in
    BacktestEngine.st_position after = signal /\
    BacktestEngine.st_portfolio after =
      match signal with
      | O => paid
      | S _ => fadd paid (fmul paid ret)
      end /\
    nth_error (BacktestEngine.st_trades final) (1 - 1) =
      Some {| BacktestEngine.date := Date cur;
              BacktestEngine.signal := signal;
              BacktestEngine.portfolio := BacktestEngine.st_portfolio after;
              BacktestEngine.returns := match signal with
                                        | O => Some 0
                                        | S _ => ret
                                        end |}.
Proof.
  split; [cbn; lia |].
  apply (direction_only_step [mkRow 0 1 10; mkRow 1 2 11]
           0.001 1000000 1).
  cbn; lia.
Defined.

Lemma grow_non_negative (w ac ap : R) :
  0 <= w -> 0 < ap -> 0 < ac -> 0 <= w + w * ((ac - ap) / ap).
Proof.
  intros Hw Hap Hac.
  replace (w + w * ((ac - ap) / ap)) with (w * (ac / ap)) by (field; lra).
  apply Rmult_le_pos; [exact Hw |].
  left. apply Rdiv_lt_0_compat; assumption.
Qed.

Lemma fdiv_nonzero (x y : R) : y <> 0 -> fdiv (Some x) (Some y) = Some (x / y).
Proof.
  intros Hy. unfold fdiv. destruct (Req_dec_T y 0); [contradiction | reflexivity].
Qed.

(** C5.  In the direction-only backtest, when every actual price is
    strictly positive, the initial capital is positive and the cost rate
    lies in [[0, 1)], the portfolio value is finite and non-negative after
    every pass of the loop, and so is every value written to the trade
    log. *)
Theorem portfolio_non_negative (predictions : list Row) (c capital : R)
  (k : nat) :
  Forall (fun row => 0 < Actual row) predictions ->
  0 < capital ->
  0 <= c < 1 ->
  (k <= length predictions - 1)%nat ->
  exists st v,
    BacktestEngine.state_after predictions c capital k = Ok st /\
    BacktestEngine.st_portfolio st = Some v /\
    0 <= v /\
    Forall (fun t => exists w, BacktestEngine.portfolio t = Some w /\ 0 <= w)
           (BacktestEngine.st_trades st).
Proof.
  intros Hprices Hcap Hc. induction k as [| k IH]; intros Hk.
  - exists (BacktestEngine.initial capital), capital.
    repeat split; [cbn; lra | constructor].
  - destruct IH as [st [v [Hst [Hv [Hpos Hlog]]]]]; [lia |].
    destruct (rows_in_range predictions (S k)) as [prev [cur [Hprev Hcur]]];
      [lia |].
    destruct (step_spec predictions c st (S k) prev cur Hprev Hcur)
      as [st' [Hstep [_ [Hport Htrades]]]].
    assert (Hap : 0 < Actual prev).
    { rewrite Forall_forall in Hprices. apply Hprices.
      eapply nth_error_In; eassumption. }
    assert (Hac : 0 < Actual cur).
    { rewrite Forall_forall in Hprices. apply Hprices.
      eapply nth_error_In; eassumption. }
    assert (Hnew : exists w, BacktestEngine.st_portfolio st' = Some w /\ 0 <= w).
    { cbv zeta in Hport. rewrite Hport, Hv.
      rewrite fdiv_nonzero by lra.
      destruct (Rlt_dec (Predicted prev) (Predicted cur));
        destruct (Nat.eq_dec _ _); cbn; eexists; split;
        try reflexivity; try apply grow_non_negative; try nra. }
    destruct Hnew as [w [Hw Hw0]].
    exists st', w. rewrite state_after_S, Hst. cbn [bind].
    repeat split; try assumption.
    rewrite Htrades. apply Forall_app. split; [exact Hlog |].
    constructor; [| constructor]. exists w. split; [exact Hw | exact Hw0].
Qed.

Lemma portfolio_non_negative_witness :
  Forall (fun row => 0 < Actual row) [mkRow 0 1 10; mkRow 1 2 11] /\
  0 < 1000000 /\
  0 <= 0.001 < 1 /\
  (1 <= length [mkRow 0 1 10; mkRow 1 2 11] - 1)%nat /\
  exists st v,
    BacktestEngine.state_after [mkRow 0 1 10; mkRow 1 2 11]
      0.001 1000000 1 = Ok st /\
    BacktestEngine.st_portfolio st = Some v /\
    0 <= v /\
    Forall (fun t => exists w, BacktestEngine.portfolio t = Some w /\ 0 <= w)
           (BacktestEngine.st_trades st).
Proof.
  assert (Hprices : Forall (fun row => 0 < Actual row)
                           [mkRow 0 1 10; mkRow 1 2 11])
    by (repeat constructor; cbn; lra).
  assert (Hcap : 0 < 1000000) by lra.
  assert (Hc : 0 <= 0.001 < 1) by lra.
  assert (Hk : (1 <= length [mkRow 0 1 10; mkRow 1 2 11] - 1)%nat)
    by (cbn; lia).
  repeat (split; [assumption |]).
  exact (portfolio_non_negative [mkRow 0 1 10; mkRow 1 2 11]
           0.001 1000000 1 Hprices Hcap Hc Hk).
Defined.

(** C9, as stated, fails.  On two rows the loop runs once, for the second
    row only, and logs one trade, not two. *)
Lemma trade_per_row_counterexample :
  ~ (exists st,
       BacktestEngine.backtest [mkRow 0 1 10; mkRow 1 2 11]
         0.001 1000000 = Ok st /\
       length (BacktestEngine.st_trades st) =
       length [mkRow 0 1 10; mkRow 1 2 11]).
Proof.
  intros [st [Hrun Hlen]].
  destruct (state_after_total [mkRow 0 1 10; mkRow 1 2 11]
              0.001 1000000 1) as [st' [Hst' Hlen']]; [cbn; lia |].
  unfold BacktestEngine.backtest in Hrun. cbn [length Nat.sub] in Hrun.
  rewrite Hrun in Hst'. injection Hst' as <-.
  rewrite Hlen' in Hlen. cbn in Hlen. lia.
Qed.

(** C9, amended.  On an input of [n] rows the direction-only backtest
    completes its loop and logs exactly [n - 1] trades (none when [n] is
    0): one for every row that has a predecessor, none for the first
    row. *)
Theorem trade_log_length (predictions : list Row) (c capital : R) :
  exists st,
    BacktestEngine.backtest predictions c capital = Ok st /\
    length (BacktestEngine.st_trades st) = (length predictions - 1)%nat.
Proof.
  apply state_after_total. lia.
Qed.

(** ** The financial metrics on an empty series *)

Lemma financial_metrics_some (x : R) (rest : list R) (risk_free_rate : R) :
  exists m,
    MetricsCalculator.calculate_financial_metrics (x :: rest) risk_free_rate
    = Ok m.
Proof.
  unfold MetricsCalculator.calculate_financial_metrics.
  cbn [map np_cumprod np_cumprod_from np_maximum_accumulate map2 np_max bind].
  eexists. reflexivity.
Qed.

(** C8.  Called on an empty return series, the financial-metrics function
    raises an error ([ValueError], from the maximum of the empty drawdown
    array) and returns no dictionary of [nan] values; it returns metrics
    exactly when the series is non-empty. *)
Theorem financial_metrics_empty (risk_free_rate : R) :
  MetricsCalculator.calculate_financial_metrics [] risk_free_rate
  = Raise ValueError /\
  forall returns,
    (exists m,
       MetricsCalculator.calculate_financial_metrics returns risk_free_rate
       = Ok m) <-> returns <> [].
Proof.
  split; [reflexivity |].
  intros returns. split.
  - intros [m Hm] ->. discriminate.
  - destruct returns as [| x rest]; [congruence |].
    intros _. apply financial_metrics_some.
Qed.

(** ** Arrays of finite values *)

Lemma map2_diag {A C : Type} (f : A -> A -> C) (xs : list A) :
  map2 f xs xs = map (fun x => f x x) xs.
Proof.
  induction xs as [| x xs IH]; cbn; [reflexivity | now rewrite IH].
Qed.

Lemma map2_lift2 (f : R -> R -> R) (xs ys : list R) :
  map2 (lift2 f) (map (@Some R) xs) (map (@Some R) ys) =
  map (@Some R) (map2 f xs ys).
Proof.
  revert ys. induction xs as [| x xs IH]; intros [| y ys]; cbn;
    try reflexivity.
  now rewrite IH.
Qed.

Lemma map2_length {A B C : Type} (f : A -> B -> C) (xs : list A) (ys : list B) :
  length (map2 f xs ys) = Nat.min (length xs) (length ys).
Proof.
  revert ys. induction xs as [| x xs IH]; intros [| y ys]; cbn;
    try reflexivity.
  now rewrite IH.
Qed.

Lemma tl_map {A B : Type} (f : A -> B) (xs : list A) :
  tl (map f xs) = map f (tl xs).
Proof. destruct xs; reflexivity. Qed.

Lemma removelast_map_some {A B : Type} (f : A -> B) (xs : list A) :
  removelast (map f xs) = map f (removelast xs).
Proof.
  induction xs as [| x [| y t] IH]; try reflexivity.
  change (removelast (map f (x :: y :: t)))
    with (f x :: removelast (map f (y :: t))).
  rewrite IH. reflexivity.
Qed.

Lemma np_sum_some (xs : list R) :
  np_sum (map (@Some R) xs) = Some (Rsum xs).
Proof.
  induction xs as [| x xs IH]; cbn; [reflexivity |].
  unfold np_sum in IH. rewrite IH. reflexivity.
Qed.

Lemma INR_length_nonzero {A : Type} (xs : list A) :
  xs <> [] -> INR (length xs) <> 0.
Proof.
  intros Hne. apply not_0_INR. destruct xs; [congruence | discriminate].
Qed.

Lemma np_mean_some (xs : list R) :
  xs <> [] ->
  np_mean (map (@Some R) xs) = Some (Rsum xs / INR (length xs)).
Proof.
  intros Hne. unfold np_mean. rewrite np_sum_some, length_map.
  apply fdiv_nonzero. now apply INR_length_nonzero.
Qed.

Lemma Rsum_const (c : R) {A : Type} (xs : list A) :
  Rsum (map (fun _ => c) xs) = INR (length xs) * c.
Proof.
  induction xs as [| x xs IH].
  - cbn. lra.
  - cbn [map Rsum fold_right]. fold (Rsum (map (fun _ : A => c) xs)).
    rewrite IH. change (length (x :: xs)) with (S (length xs)).
    rewrite S_INR. lra.
Qed.

Lemma Rsum_squares_nonneg (mu : R) (xs : list R) :
  0 <= Rsum (map (fun x => (x - mu) * (x - mu)) xs).
Proof.
  unfold Rsum. induction xs as [| x xs IH]; cbn [map fold_right]; [lra |].
  pose proof (Rle_0_sqr (x - mu)) as Hsq. unfold Rsqr in Hsq. lra.
Qed.

Lemma Rsum_squares_zero (mu : R) (xs : list R) :
  Rsum (map (fun x => (x - mu) * (x - mu)) xs) = 0 ->
  Forall (fun x => x = mu) xs.
Proof.
  induction xs as [| x xs IH]; intros Hsum; [constructor |].
  pose proof (Rsum_squares_nonneg mu xs) as Hrest.
  unfold Rsum in *. cbn [map fold_right] in Hsum.
  pose proof (Rle_0_sqr (x - mu)) as Hsq. unfold Rsqr in Hsq.
  assert (Hx : (x - mu) * (x - mu) = 0) by lra.
  constructor.
  - apply Rmult_integral in Hx. lra.
  - apply IH. lra.
Qed.

(** ** The prediction metrics of a perfect predictor *)

Section PerfectPredictor.

Variable actual : list R.

Let zeros : list fval := map (@Some R) (map (fun _ => 0) actual).

Lemma perfect_errors :
  broadcast2 fsub (map (@Some R) actual) (map (@Some R) actual) = Ok zeros.
Proof.
  unfold broadcast2, zeros. rewrite Nat.eqb_refl. f_equal.
  rewrite map2_diag, !map_map. apply map_ext. intros x. cbn.
  f_equal. lra.
Qed.

Lemma perfect_ratios :
  Forall (fun x => x <> 0) actual ->
  broadcast2 fdiv zeros (map fabs (map (@Some R) actual)) = Ok zeros.
Proof.
  intros Hnz. unfold broadcast2, zeros.
  rewrite !length_map, Nat.eqb_refl. f_equal.
  induction Hnz as [| x xs Hx _ IH]; [reflexivity |].
  cbn [map map2]. rewrite IH. f_equal.
  cbn [fabs lift1]. rewrite fdiv_nonzero by (now apply Rabs_no_R0).
  f_equal. unfold Rdiv. apply Rmult_0_l.
Qed.

Lemma mean_of_zeros (f : fval -> fval) :
  actual <> [] ->
  f (Some 0) = Some 0 ->
  np_mean (map f zeros) = Some 0.
Proof.
  intros Hne Hf. unfold zeros. rewrite !map_map.
  replace (map (fun _ : R => f (Some 0)) actual)
    with (map (@Some R) (map (fun _ : R => 0) actual))
    by (rewrite map_map; apply map_ext; intros; now rewrite Hf).
  rewrite np_mean_some by (destruct actual; [congruence | discriminate]).
  rewrite Rsum_const. f_equal. unfold Rdiv. rewrite Rmult_0_r. apply Rmult_0_l.
Qed.

Lemma sum_of_zeros (f : fval -> fval) :
  f (Some 0) = Some 0 ->
  np_sum (map f zeros) = Some 0.
Proof.
  intros Hf. unfold zeros. rewrite !map_map.
  replace (map (fun _ : R => f (Some 0)) actual)
    with (map (@Some R) (map (fun _ : R => 0) actual))
    by (rewrite map_map; apply map_ext; intros; now rewrite Hf).
  rewrite np_sum_some, Rsum_const. f_equal. apply Rmult_0_r.
Qed.

(** The total sum of squares is finite, and positive unless all values
    coincide. *)
Lemma total_sum_of_squares :
  actual <> [] ->
  exists mu,
    np_sum (map (fun x => fsquare (fsub x (np_mean (map (@Some R) actual))))
                (map (@Some R) actual)) =
    Some (Rsum (map (fun x => (x - mu) * (x - mu)) actual)).
Proof.
  intros Hne. rewrite np_mean_some by exact Hne.
  exists (Rsum actual / INR (length actual)).
  rewrite map_map. rewrite <- np_sum_some. f_equal.
  rewrite map_map. reflexivity.
Qed.

Lemma direction_signs (xs : list R) :
  map fsign (np_diff (map (@Some R) xs)) =
  map (@Some R) (map Rsign (map2 Rminus (tl xs) (removelast xs))).
Proof.
  unfold np_diff. rewrite tl_map, removelast_map_some.
  unfold fsub. rewrite map2_lift2, !map_map. reflexivity.
Qed.

Lemma same_directions (zs : list R) :
  broadcast2 feqb (map (@Some R) zs) (map (@Some R) zs) =
  Ok (map (fun _ => true) zs).
Proof.
  unfold broadcast2. rewrite Nat.eqb_refl. f_equal.
  rewrite map2_diag, map_map. apply map_ext. intros z.
  cbn. destruct (Req_dec_T z z); [reflexivity | congruence].
Qed.

Lemma mean_all_true {A : Type} (zs : list A) :
  zs <> [] ->
  np_mean_bool (map (fun _ => true) zs) = Some 1.
Proof.
  intros Hne. unfold np_mean_bool. rewrite map_map.
  replace (map (fun _ : A => Some 1) zs)
    with (map (@Some R) (map (fun _ : A => 1) zs))
    by (rewrite map_map; reflexivity).
  rewrite np_mean_some by (destruct zs; [congruence | discriminate]).
  rewrite Rsum_const, length_map. f_equal.
  field. now apply INR_length_nonzero.
Qed.

End PerfectPredictor.

(** C6.  For a series of at least two values, none of them zero and not
    all identical, used as both the actual and the predicted array, the
    prediction metrics are [R2 = 1], [MAPE = 0] and
    [Direction_Accuracy = 100], exactly. *)
Theorem perfect_predictor_metrics (actual : list R) :
  (2 <= length actual)%nat ->
  Forall (fun x => x <> 0) actual ->
  (exists x y, In x actual /\ In y actual /\ x <> y) ->
  exists m,
    MetricsCalculator.calculate_prediction_metrics actual actual = Ok m /\
    MetricsCalculator.R2 m = Some 1 /\
    MetricsCalculator.MAPE m = Some 0 /\
    MetricsCalculator.Direction_Accuracy m = Some 100.
Proof.
  intros Hlen Hnz [x [y [Hx [Hy Hxy]]]].
  assert (Hne : actual <> []) by (destruct actual; [cbn in Hlen; lia | discriminate]).
  unfold MetricsCalculator.calculate_prediction_metrics.
  rewrite perfect_errors. cbn [bind].
  rewrite (perfect_ratios actual Hnz). cbn [bind].
  rewrite !direction_signs, same_directions. cbn [bind].
  eexists. split; [reflexivity |].
  cbn [MetricsCalculator.R2 MetricsCalculator.MAPE
       MetricsCalculator.Direction_Accuracy].
  repeat split.
  - rewrite (sum_of_zeros actual fsquare) by (cbn; f_equal; lra).
    destruct (total_sum_of_squares actual Hne) as [mu Hss]. rewrite Hss.
    rewrite fdiv_nonzero.
    + cbn. f_equal. unfold Rdiv. rewrite Rmult_0_l. lra.
    + intros Hzero. apply Rsum_squares_zero in Hzero.
      rewrite Forall_forall in Hzero.
      apply Hxy. rewrite (Hzero x Hx), (Hzero y Hy). reflexivity.
  - rewrite (mean_of_zeros actual fabs Hne) by (cbn; f_equal; apply Rabs_R0).
    cbn. f_equal. lra.
  - rewrite mean_all_true.
    + cbn. f_equal. lra.
    + destruct actual as [| a [| b t]]; cbn in Hlen; try lia.
      discriminate.
Qed.

Lemma perfect_predictor_metrics_witness :
  (2 <= length [100; 110])%nat /\
  Forall (fun x => x <> 0) [100; 110] /\
  (exists x y, In x [100; 110] /\ In y [100; 110] /\ x <> y) /\
  exists m,
    MetricsCalculator.calculate_prediction_metrics [100; 110] [100; 110]
    = Ok m /\
    MetricsCalculator.R2 m = Some 1 /\
    MetricsCalculator.MAPE m = Some 0 /\
    MetricsCalculator.Direction_Accuracy m = Some 100.
Proof.
  assert (Hlen : (2 <= length [100; 110])%nat) by (cbn; lia).
  assert (Hnz : Forall (fun x => x <> 0) [100; 110])
    by (repeat constructor; lra).
  assert (Hvar : exists x y, In x [100; 110] /\ In y [100; 110] /\ x <> y).
  { exists 100, 110. cbn. repeat split; [auto | auto | lra]. }
  repeat (split; [assumption |]).
  exact (perfect_predictor_metrics [100; 110] Hlen Hnz Hvar).
Defined.

(** ** Sorting and the percentile *)

Lemma Rleb_true (x y : R) : Rleb x y = true <-> x <= y.
Proof.
  unfold Rleb. destruct (Rle_dec x y); split; intros; congruence || auto.
Qed.

Lemma insert_In (x y : R) (xs : list R) :
  In y (insert x xs) <-> y = x \/ In y xs.
Proof.
  induction xs as [| z zs IH]; cbn.
  - intuition.
  - destruct (Rleb x z); cbn; [intuition |].
    rewrite IH. intuition.
Qed.

Lemma sort_In (y : R) (xs : list R) : In y (sort xs) <-> In y xs.
Proof.
  induction xs as [| x xs IH]; cbn; [reflexivity |].
  rewrite insert_In, IH. intuition.
Qed.

Lemma insert_length (x : R) (xs : list R) :
  length (insert x xs) = S (length xs).
Proof.
  induction xs as [| z zs IH]; cbn; [reflexivity |].
  destruct (Rleb x z); cbn; [reflexivity | now rewrite IH].
Qed.

Lemma sort_length (xs : list R) : length (sort xs) = length xs.
Proof.
  induction xs as [| x xs IH]; cbn; [reflexivity |].
  now rewrite insert_length, IH.
Qed.

Lemma insert_sorted (x : R) (xs : list R) :
  StronglySorted Rle xs -> StronglySorted Rle (insert x xs).
Proof.
  induction 1 as [| z zs Hzs IH Hall]; cbn.
  - repeat constructor.
  - destruct (Rleb x z) eqn:Hxz.
    + apply Rleb_true in Hxz. constructor.
      * now constructor.
      * constructor; [exact Hxz |].
        eapply Forall_impl; [| exact Hall]. cbn. intros; lra.
    + assert (Hzx : z <= x).
      { destruct (Rle_dec x z) as [Hle | Hgt].
        - apply Rleb_true in Hle. congruence.
        - lra. }
      constructor; [exact IH |].
      rewrite Forall_forall in *. intros y Hy.
      apply insert_In in Hy. destruct Hy as [-> | Hy]; auto.
Qed.

Lemma sort_sorted (xs : list R) : StronglySorted Rle (sort xs).
Proof.
  induction xs as [| x xs IH]; cbn; [constructor | now apply insert_sorted].
Qed.

Lemma sorted_nth_le (xs : list R) (d : R) (i j : nat) :
  StronglySorted Rle xs ->
  (i <= j < length xs)%nat ->
  nth i xs d <= nth j xs d.
Proof.
  intros Hs. revert i j.
  induction Hs as [| z zs Hzs IH Hall]; intros i j Hij; cbn in Hij; [lia |].
  destruct i as [| i], j as [| j]; cbn; try lia.
  - lra.
  - rewrite Forall_forall in Hall. apply Hall. apply nth_In. lia.
  - apply IH. lia.
Qed.

Lemma Int_part_nonneg (r : R) : 0 <= r -> (0 <= Int_part r)%Z.
Proof.
  intros Hr. destruct (base_Int_part r) as [_ Hgt].
  assert (Hlt : IZR (-1) < IZR (Int_part r)) by lra.
  apply lt_IZR in Hlt. lia.
Qed.

(** For a level strictly between 0 and 1 the percentile of a non-empty
    series is finite and not below one of its elements. *)
Lemma percentile_above_element (xs : list R) (q : R) :
  xs <> [] ->
  0 < q < 1 ->
  exists var lo,
    np_percentile xs ((1 - q) * 100) = Ok (Some var) /\
    In lo xs /\
    lo <= var.
Proof.
  intros Hne Hq. destruct xs as [| x0 t]; [congruence |].
  unfold np_percentile.
  assert (H0 : Rleb 0 ((1 - q) * 100 / 100) = true) by (apply Rleb_true; lra).
  assert (H1 : Rleb ((1 - q) * 100 / 100) 1 = true) by (apply Rleb_true; lra).
  rewrite H0, H1. cbn [andb].
  set (n := length (x0 :: t)).
  set (virtual_index := (INR n - 1) * ((1 - q) * 100 / 100)).
  set (sorted := sort (x0 :: t)).
  assert (Hn : (1 <= n)%nat) by (unfold n; cbn; lia).
  assert (Hvirt : 0 <= virtual_index).
  { unfold virtual_index. apply Rmult_le_pos; [| lra].
    assert (1 <= INR n)
      by (replace 1 with (INR 1) by reflexivity; apply le_INR; exact Hn).
    lra. }
  destruct (base_Int_part virtual_index) as [Hfloor _].
  set (previous := Nat.min (Z.to_nat (Int_part virtual_index)) (n - 1)).
  set (next := Nat.min (Z.to_nat (Int_part virtual_index) + 1) (n - 1)).
  exists (lerp (nth previous sorted x0) (nth next sorted x0)
               (virtual_index - IZR (Int_part virtual_index))).
  exists (nth previous sorted x0).
  assert (Hlen : length sorted = n) by (unfold sorted; apply sort_length).
  split; [reflexivity |]. split.
  - apply (sort_In _ (x0 :: t)). fold sorted. apply nth_In. rewrite Hlen.
    unfold previous. lia.
  - unfold lerp.
    assert (Hord : nth previous sorted x0 <= nth next sorted x0).
    { apply sorted_nth_le; [apply sort_sorted |]. rewrite Hlen.
      unfold previous, next. lia. }
    nra.
Qed.

Lemma series_min_le (xs : list R) (x : R) :
  In x xs -> MetricsCalculator.series_min xs <= x.
Proof.
  destruct xs as [| a t]; [intros [] |]. cbn [MetricsCalculator.series_min].
  induction t as [| b t IH]; cbn [fold_right In].
  - intros [-> | []]. lra.
  - intros Hin. pose proof (Rmin_l b (fold_right Rmin a t)) as Hl.
    pose proof (Rmin_r b (fold_right Rmin a t)) as Hr.
    destruct Hin as [-> | [-> | Hin]].
    + assert (fold_right Rmin x t <= x) by (apply IH; now left). lra.
    + lra.
    + assert (fold_right Rmin a t <= x) by (apply IH; now right). lra.
Qed.

Lemma finite_values_some (ys : list R) :
  ArraysWithNaN.finite_values (map (@Some R) ys) = Some ys.
Proof.
  induction ys as [| y t IH]; cbn; [reflexivity | now rewrite IH].
Qed.

Lemma finite_values_none (xs : list fval) :
  ArraysWithNaN.finite_values xs = None -> In None xs.
Proof.
  induction xs as [| [a |] t IH]; cbn.
  - discriminate.
  - destruct (ArraysWithNaN.finite_values t); [discriminate |].
    intros _. right. now apply IH.
  - intros _. now left.
Qed.

Lemma finite_values_complete (xs : list fval) (ys : list R) :
  ArraysWithNaN.finite_values xs = Some ys -> xs = map (@Some R) ys.
Proof.
  revert ys. induction xs as [| [a |] t IH]; intros ys; cbn.
  - intros Heq. injection Heq as <-. reflexivity.
  - destruct (ArraysWithNaN.finite_values t) as [zs |]; [| discriminate].
    intros Heq. injection Heq as <-. cbn. now rewrite (IH zs).
  - discriminate.
Qed.

Lemma in_none_map_some (ys : list R) : ~ In None (map (@Some R) ys).
Proof.
  induction ys as [| y t IH]; cbn; [tauto |].
  intros [Hbad | Hin]; [discriminate | now apply IH].
Qed.

Lemma at_or_below_finite (v : R) (ys : list R) :
  ArraysWithNaN.at_or_below (Some v) (map (@Some R) ys) =
  map (@Some R) (MetricsCalculator.at_or_below (Some v) ys).
Proof.
  unfold ArraysWithNaN.at_or_below, MetricsCalculator.at_or_below.
  induction ys as [| y t IH]; [reflexivity |].
  cbn [map filter]. destruct (Rleb y v); cbn [map]; now rewrite IH.
Qed.

(** C10, as stated, fails.  The series the evaluator passes is the
    [pct_change()] of the actual column and starts with [nan]: on such a
    series the percentile is [nan], no return compares at or below it, and
    [CVaR] is the mean of the empty selection, [nan].  And on doubles the
    order of the two results does not hold even for finite input: for
    three returns of 0.1 at level 0.95 the value at risk is 0.1 and the
    tail mean 0.10000000000000002. *)
Lemma nan_series_counterexample :
  (exists m,
     ArraysWithNaN.calculate_risk_metrics
       [None; Some 0.01; Some (-0.02)] 0.95 = Ok m /\
     MetricsCalculator.VaR m = None /\
     ArraysWithNaN.at_or_below (MetricsCalculator.VaR m)
       [None; Some 0.01; Some (-0.02)] = [] /\
     MetricsCalculator.CVaR m = None) /\
  PrimFloat.ltb (Binary64.VaR Binary64.three_tenths Binary64.level_95)
                (Binary64.CVaR Binary64.three_tenths Binary64.level_95)
  = true.
Proof.
  split; [| vm_compute; reflexivity].
  unfold ArraysWithNaN.calculate_risk_metrics,
    ArraysWithNaN.np_percentile_nan.
  cbn [ArraysWithNaN.finite_values]. cbv zeta.
  assert (H0 : Rleb 0 ((1 - 0.95) * 100 / 100) = true)
    by (apply Rleb_true; lra).
  assert (H1 : Rleb ((1 - 0.95) * 100 / 100) 1 = true)
    by (apply Rleb_true; lra).
  rewrite H0, H1. cbn [andb bind].
  eexists. split; [reflexivity |].
  cbn [MetricsCalculator.VaR MetricsCalculator.CVaR
       ArraysWithNaN.at_or_below].
  repeat split.
  unfold np_mean, np_sum, fdiv. cbn [fold_right length INR].
  destruct (Req_dec_T 0 0); [reflexivity | congruence].
Qed.

(** C10, amended.  For every non-empty return series and every confidence
    level strictly between 0 and 1 the risk metrics are returned, and: on
    a series without [nan], [VaR] is finite and at least the minimum of
    the series, the returns at or below [VaR] are not empty, and [CVaR]
    is their mean, a finite value; on a series that holds a [nan], [VaR]
    is [nan], no return is selected, and [CVaR] is [nan]. *)
Theorem var_tail_nonempty_unless_nan (returns : list fval)
  (confidence_level : R) :
  returns <> [] ->
  0 < confidence_level < 1 ->
  exists m,
    ArraysWithNaN.calculate_risk_metrics returns confidence_level = Ok m /\
    (forall ys,
        returns = map (@Some R) ys ->
        exists var cvar,
          MetricsCalculator.VaR m = Some var /\
          MetricsCalculator.series_min ys <= var /\
          ArraysWithNaN.at_or_below (MetricsCalculator.VaR m) returns <> [] /\
          MetricsCalculator.CVaR m = Some cvar) /\
    (In None returns ->
     MetricsCalculator.VaR m = None /\
     ArraysWithNaN.at_or_below (MetricsCalculator.VaR m) returns = [] /\
     MetricsCalculator.CVaR m = None).
Proof.
  intros Hne Hq.
  unfold ArraysWithNaN.calculate_risk_metrics,
    ArraysWithNaN.np_percentile_nan.
  destruct (ArraysWithNaN.finite_values returns) as [ys |] eqn:Hfin.
  - apply finite_values_complete in Hfin. subst returns.
    assert (Hys : ys <> [])
      by (destruct ys; [exfalso; now apply Hne | discriminate]).
    destruct (percentile_above_element ys confidence_level Hys Hq)
      as [var [lo [Hvar [Hin Hlo]]]].
    rewrite Hvar. cbn [bind]. eexists. split; [reflexivity |].
    cbn [MetricsCalculator.VaR MetricsCalculator.CVaR].
    split; [| intros Hnan; now apply in_none_map_some in Hnan].
    intros ys' Heq.
    assert (ys' = ys).
    { clear - Heq. revert ys' Heq.
      induction ys as [| y t IH]; intros [| y' t'] Heq; cbn in Heq;
        try discriminate; [reflexivity |].
      injection Heq as -> Heq. f_equal. now apply IH. }
    subst ys'.
    rewrite at_or_below_finite.
    set (tail := MetricsCalculator.at_or_below (Some var) ys).
    assert (Htail : tail <> []).
    { assert (Hlo_in : In lo tail).
      { unfold tail, MetricsCalculator.at_or_below. apply filter_In.
        split; [exact Hin | now apply Rleb_true]. }
      intros Hnil. rewrite Hnil in Hlo_in. exact Hlo_in. }
    exists var, (Rsum tail / INR (length tail)).
    split; [reflexivity |]. split.
    { pose proof (series_min_le ys lo Hin). lra. }
    split; [| now apply np_mean_some].
    intros Hnil. apply Htail.
    destruct tail; [reflexivity | discriminate].
  - apply finite_values_none in Hfin. cbv zeta.
    assert (H0 : Rleb 0 ((1 - confidence_level) * 100 / 100) = true)
      by (apply Rleb_true; lra).
    assert (H1 : Rleb ((1 - confidence_level) * 100 / 100) 1 = true)
      by (apply Rleb_true; lra).
    rewrite H0, H1. cbn [andb bind]. eexists. split; [reflexivity |].
    cbn [MetricsCalculator.VaR MetricsCalculator.CVaR
         ArraysWithNaN.at_or_below].
    split.
    + intros ys Heq. exfalso. subst returns.
      now apply in_none_map_some in Hfin.
    + intros _. repeat split.
      unfold np_mean, np_sum, fdiv. cbn [fold_right length INR].
      destruct (Req_dec_T 0 0); [reflexivity | congruence].
Qed.

Lemma var_tail_nonempty_unless_nan_witness :
  [Some 0.01; Some (-0.02); Some 0.03] <> [] /\
  0 < 0.95 < 1 /\
  exists m,
    ArraysWithNaN.calculate_risk_metrics
      [Some 0.01; Some (-0.02); Some 0.03] 0.95 = Ok m /\
    (forall ys,
        [Some 0.01; Some (-0.02); Some 0.03] = map (@Some R) ys ->
        exists var cvar,
          MetricsCalculator.VaR m = Some var /\
          MetricsCalculator.series_min ys <= var /\
          ArraysWithNaN.at_or_below (MetricsCalculator.VaR m)
            [Some 0.01; Some (-0.02); Some 0.03] <> [] /\
          MetricsCalculator.CVaR m = Some cvar) /\
    (In None [Some 0.01; Some (-0.02); Some 0.03] ->
     MetricsCalculator.VaR m = None /\
     ArraysWithNaN.at_or_below (MetricsCalculator.VaR m)
       [Some 0.01; Some (-0.02); Some 0.03] = [] /\
     MetricsCalculator.CVaR m = None).
Proof.
  assert (Hne : [Some 0.01; Some (-0.02); Some 0.03] <> []) by discriminate.
  assert (Hq : 0 < 0.95 < 1) by lra.
  split; [exact Hne |]. split; [exact Hq |].
  exact (var_tail_nonempty_unless_nan
           [Some 0.01; Some (-0.02); Some 0.03] 0.95 Hne Hq).
Defined.

(** ** Runs on concrete inputs *)

(** Two rows with a rising prediction: the loop runs once, pays the cost
    of entering the position and earns the 10 percent move. *)
Example direction_only_run :
  exists st,
    BacktestEngine.backtest [mkRow 0 1 10; mkRow 1 2 11] 0.001 1000 = Ok st /\
    BacktestEngine.st_portfolio st = Some 1098.9 /\
    BacktestEngine.st_position st = 1%nat /\
    BacktestEngine.st_daily_returns st = [Some 0.1].
Proof.
  unfold BacktestEngine.backtest, BacktestEngine.state_after.
  cbn [length Nat.sub seq BacktestEngine.for_each].
  unfold BacktestEngine.step.
  cbn [BacktestEngine.iloc nth_error Nat.sub bind Predicted Actual].
  unfold Rltb. destruct (Rlt_dec 1 2) as [_ | Hno]; [| exfalso; lra].
  cbn [BacktestEngine.st_position BacktestEngine.st_portfolio
       BacktestEngine.st_daily_returns BacktestEngine.initial
       Nat.eqb negb app].
  rewrite !fdiv_nonzero by lra. cbn [bind].
  eexists. split; [reflexivity |]. cbn.
  repeat split; repeat f_equal; lra.
Qed.

(** One row: the loop does not run and nothing is logged. *)
Example direction_only_single_row :
  BacktestEngine.backtest [mkRow 0 1 10] 0.001 1000 =
  Ok (BacktestEngine.initial 1000).
Proof. reflexivity. Qed.

(** An empty frame has no first row to write the entry position to. *)
Example continuous_backtest_empty :
  FusionBacktest.backtest [] 0.002 0.5 = Raise IndexError.
Proof. reflexivity. Qed.

(** Arrays of different lengths, neither of length one, do not broadcast. *)
Example prediction_metrics_mismatch :
  MetricsCalculator.calculate_prediction_metrics [1; 2; 3] [1; 2]
  = Raise ValueError.
Proof. reflexivity. Qed.

(** A zero actual value makes the percentage error non-finite while the
    other metrics stay defined. *)
Example prediction_metrics_zero_actual :
  exists m,
    MetricsCalculator.calculate_prediction_metrics [0; 1] [0; 1] = Ok m /\
    MetricsCalculator.MAPE m = None /\
    MetricsCalculator.MAE m = Some 0.
Proof.
  assert (Hz : fdiv (Some 0) (Some (Rabs 0)) = None).
  { rewrite Rabs_R0. unfold fdiv.
    destruct (Req_dec_T 0 0); [reflexivity | congruence]. }
  unfold MetricsCalculator.calculate_prediction_metrics.
  rewrite perfect_errors. cbn [bind map].
  unfold broadcast2. cbn [length Nat.eqb map2 map fabs lift1 bind].
  eexists. split; [reflexivity |].
  cbn [MetricsCalculator.MAPE MetricsCalculator.MAE].
  split.
  - rewrite Hz. reflexivity.
  - unfold np_mean, np_sum.
    cbn [fold_right fadd lift2 length].
    rewrite fdiv_nonzero by (cbn [INR]; lra).
    f_equal. rewrite Rabs_R0. lra.
Qed.

(** * Further properties *)

(** ** The position sizer *)

(** X4.  For a positive maximum position the position never opposes the
    prediction: a non-negative predicted return gives a non-negative
    position and a non-positive one a non-positive position. *)
Theorem position_size_sign (r m : R) :
  0 < m ->
  (0 <= r -> 0 <= calculate_position_size r m) /\
  (r <= 0 -> calculate_position_size r m <= 0).
Proof.
  intros Hm. rewrite position_unclipped by exact Hm. split; intros Hr.
  - pose proof (sigma_mono 0 r Hr) as Hs. rewrite sigma_0 in Hs. nra.
  - pose proof (sigma_mono r 0 Hr) as Hs. rewrite sigma_0 in Hs. nra.
Qed.

Lemma position_size_sign_witness :
  0 < 0.5 /\
  ((0 <= 1 -> 0 <= calculate_position_size 1 0.5) /\
   (1 <= 0 -> calculate_position_size 1 0.5 <= 0)).
Proof.
  split; [lra | apply (position_size_sign 1 0.5); lra].
Defined.

(** X5.  A maximum position that is not positive is not rejected: the
    clip bounds are then crossed and the sizer returns [max_position]
    itself whatever the prediction. *)
Theorem position_size_degenerate (r m : R) :
  m <= 0 -> calculate_position_size r m = m.
Proof.
  intros Hm. unfold calculate_position_size, np_clip. cbv zeta.
  apply Rmin_right.
  pose proof (Rmax_r (2 * m * (1 / (1 + exp (- r)) - 0.5)) (- m)). lra.
Qed.

Lemma position_size_degenerate_witness :
  - (0.5) <= 0 /\ calculate_position_size 1 (- (0.5)) = - (0.5).
Proof.
  split; [lra | apply (position_size_degenerate 1 (- (0.5))); lra].
Defined.

(** ** The columns of the continuous-position backtest *)

Section BacktestColumns.

Import FusionBacktest.

Variables cost max_position : R.

Let size (row : Row) : R :=
  calculate_position_size (Predicted row) max_position.

Lemma changes_as_map2 (xs : list R) (x0 : R) :
  map2 (fun a b => Some (a - b)) xs (x0 :: xs) =
  map (@Some R) (changes_from x0 xs).
Proof.
  revert x0. induction xs as [| a t IH]; intros x0; [reflexivity |].
  cbn [map2 changes_from map]. now rewrite IH.
Qed.

Lemma net_returns_finite (rows : list Row) (prior : R) :
  exists ds, net_returns prior rows cost max_position = map (@Some R) ds /\
             length ds = length rows.
Proof.
  revert prior. induction rows as [| row rest IH]; intros prior.
  - exists []. split; reflexivity.
  - destruct (IH (size row)) as [ds [Hds Hlen]].
    eexists (_ :: ds). cbn [net_returns map]. fold (size row).
    rewrite Hds. split; [reflexivity | cbn; now rewrite Hlen].
Qed.

Lemma cumprod_finite (ds : list R) (acc : R) :
  pd_cumprod_from acc (map (fadd (Some 1)) (map (@Some R) ds)) =
  map (@Some R) (compound_from acc ds).
Proof.
  revert acc. induction ds as [| d t IH]; intros acc; [reflexivity |].
  cbn [map fadd lift2 pd_cumprod_from compound_from]. now rewrite IH.
Qed.

(** The frame the backtest returns, column by column. *)
Lemma backtest_explicit (row : Row) (rest : list Row) :
  exists cols ds,
    backtest (row :: rest) cost max_position = Ok cols /\
    position cols = map size (row :: rest) /\
    position_change cols =
      map (@Some R) (changes_from 0 (map size (row :: rest))) /\
    transaction_cost cols =
      map (@Some R)
          (map (fun d => Rabs d * cost)
               (changes_from 0 (map size (row :: rest)))) /\
    daily_return cols = map (@Some R) ds /\
    length ds = length (row :: rest) /\
    cumulative_return cols =
      map (@Some R) (map (fun x => (x - 1) * 100) (compound ds)).
Proof.
  destruct (backtest_daily_return cost max_position row rest)
    as [cols [Hrun Hdaily]].
  destruct (net_returns_finite (row :: rest) 0) as [ds [Hds Hlen]].
  exists cols, ds. split; [exact Hrun |].
  unfold backtest in Hrun.
  cbn [map iloc0 bind loc_set_first shift1 map2] in Hrun.
  rewrite change_after_first, changes_as_map2 in Hrun.
  fold (size row) in Hrun.
  assert (Hchange :
            Some (size row) :: map (@Some R) (changes_from (size row) (map size rest))
            = map (@Some R) (changes_from 0 (map size (row :: rest)))).
  { cbn [map changes_from]. now rewrite Rminus_0_r. }
  split; [injection Hrun as <-; reflexivity |].
  split; [injection Hrun as <-; cbn [position_change]; exact Hchange |].
  split.
  { injection Hrun as <-. cbn [transaction_cost map changes_from].
    rewrite Rminus_0_r. f_equal. rewrite !map_map. reflexivity. }
  split; [now rewrite Hdaily |].
  split; [exact Hlen |].
  assert (Hcum : cumulative_return cols =
                 map (fun x => fmul (fsub x (Some 1)) (Some 100))
                     (pd_cumprod (map (fadd (Some 1)) (daily_return cols)))).
  { injection Hrun as <-. reflexivity. }
  rewrite Hcum, Hdaily, Hds. unfold pd_cumprod, compound.
  rewrite cumprod_finite, !map_map. reflexivity.
Qed.

End BacktestColumns.

Lemma changes_from_length (ps : list R) (prior : R) :
  length (changes_from prior ps) = length ps.
Proof.
  revert prior. induction ps as [| p t IH]; intros prior; cbn;
    [reflexivity | now rewrite IH].
Qed.

Lemma compound_from_length (ds : list R) (acc : R) :
  length (compound_from acc ds) = length ds.
Proof.
  revert acc. induction ds as [| d t IH]; intros acc; cbn;
    [reflexivity | now rewrite IH].
Qed.

Lemma Forall_map_some (xs : list R) :
  Forall (fun x : fval => x <> None) (map (@Some R) xs).
Proof.
  induction xs; cbn; constructor; [discriminate | assumption].
Qed.

(** X6.  On a non-empty frame the continuous-position backtest returns
    columns of the frame's length in which every entry is finite: the
    [nan] that [shift(1)] puts into the first position change is
    overwritten and reaches no other column. *)
Theorem backtest_columns_finite (df_recent : list Row) (c m : R) :
  df_recent <> [] ->
  exists cols,
    FusionBacktest.backtest df_recent c m = Ok cols /\
    length (FusionBacktest.position cols) = length df_recent /\
    length (FusionBacktest.position_change cols) = length df_recent /\
    length (FusionBacktest.transaction_cost cols) = length df_recent /\
    length (FusionBacktest.daily_return cols) = length df_recent /\
    length (FusionBacktest.cumulative_return cols) = length df_recent /\
    Forall (fun x : fval => x <> None)
           (FusionBacktest.position_change cols
            ++ FusionBacktest.transaction_cost cols
            ++ FusionBacktest.daily_return cols
            ++ FusionBacktest.cumulative_return cols).
Proof.
  intros Hne. destruct df_recent as [| row rest]; [congruence |].
  destruct (backtest_explicit c m row rest)
    as [cols [ds [Hrun [Hpos [Hchg [Hcost [Hdaily [Hlen Hcum]]]]]]]].
  exists cols. split; [exact Hrun |].
  rewrite Hpos, Hchg, Hcost, Hdaily, Hcum.
  unfold compound.
  rewrite !length_map, !changes_from_length, !length_map,
    compound_from_length.
  repeat (split; [first [reflexivity | exact Hlen] |]).
  repeat (apply Forall_app; split); apply Forall_map_some.
Qed.

Lemma backtest_columns_finite_witness :
  [mkRow 0 1 2; mkRow 1 (- (1)) 3] <> [] /\
  exists cols,
    FusionBacktest.backtest [mkRow 0 1 2; mkRow 1 (- (1)) 3] 0.002 0.5
    = Ok cols /\
    length (FusionBacktest.position cols)
    = length [mkRow 0 1 2; mkRow 1 (- (1)) 3] /\
    length (FusionBacktest.position_change cols)
    = length [mkRow 0 1 2; mkRow 1 (- (1)) 3] /\
    length (FusionBacktest.transaction_cost cols)
    = length [mkRow 0 1 2; mkRow 1 (- (1)) 3] /\
    length (FusionBacktest.daily_return cols)
    = length [mkRow 0 1 2; mkRow 1 (- (1)) 3] /\
    length (FusionBacktest.cumulative_return cols)
    = length [mkRow 0 1 2; mkRow 1 (- (1)) 3] /\
    Forall (fun x : fval => x <> None)
           (FusionBacktest.position_change cols
            ++ FusionBacktest.transaction_cost cols
            ++ FusionBacktest.daily_return cols
            ++ FusionBacktest.cumulative_return cols).
Proof.
  split; [discriminate |].
  apply (backtest_columns_finite [mkRow 0 1 2; mkRow 1 (- (1)) 3] 0.002 0.5).
  discriminate.
Defined.






Lemma changes_constant (ps : list R) (v : R) :
  Forall (fun p => p = v) ps ->
  changes_from v ps = map (fun _ => 0) ps.
Proof.
  induction 1 as [| p t Hp _ IH]; [reflexivity |].
  subst p. cbn [changes_from map]. rewrite IH. f_equal. lra.
Qed.

Lemma map_const_repeat {A B : Type} (b : B) (xs : list A) :
  map (fun _ => b) xs = repeat b (length xs).
Proof.
  induction xs as [| x t IH]; cbn; [reflexivity | now rewrite IH].
Qed.

Lemma pd_sum_zeros (n : nat) : FusionStats.pd_sum (repeat (Some 0) n) = 0.
Proof.
  induction n as [| n IH]; cbn; [reflexivity |].
  unfold FusionStats.pd_sum in IH. rewrite IH. lra.
Qed.

Lemma filter_nonzero_zeros (n : nat) :
  filter FusionStats.nonzero (repeat (Some 0) n) = [].
Proof.
  induction n as [| n IH]; cbn; [reflexivity |].
  destruct (Req_dec_T 0 0); [exact IH | congruence].
Qed.

(** X8.  When every row carries the same prediction the position is
    entered once and then held: the first row is charged [|p| * c] for the
    position [p] it enters, every later row is charged nothing, the total
    cost figure is [|p| * c * 100] and at most one trade is counted. *)
Theorem constant_prediction_costs (df_recent : list Row) (c m r : R) :
  df_recent <> [] ->
  Forall (fun row => Predicted row = r) df_recent ->
  exists cols,
    FusionBacktest.backtest df_recent c m = Ok cols /\
    FusionBacktest.transaction_cost cols =
      Some (Rabs (calculate_position_size r m) * c)
        :: repeat (Some 0) (length df_recent - 1) /\
    FusionStats.total_cost cols =
      Rabs (calculate_position_size r m) * c * 100 /\
    (FusionStats.trade_counts cols <= 1)%nat.
Proof.
  intros Hne Hall. destruct df_recent as [| row rest]; [congruence |].
  destruct (backtest_explicit c m row rest)
    as [cols [ds [Hrun [_ [Hchg [Hcost _]]]]]].
  exists cols. split; [exact Hrun |].
  inversion Hall as [| ? ? Hrow Hrest]; subst.
  assert (Hps : Forall (fun p => p = calculate_position_size (Predicted row) m)
                       (map (fun x => calculate_position_size (Predicted x) m)
                            rest)).
  { apply Forall_map. eapply Forall_impl; [| exact Hrest].
    cbn. intros a ->. reflexivity. }
  cbn [map changes_from] in Hchg, Hcost.
  rewrite (changes_constant _ _ Hps) in Hchg, Hcost.
  rewrite Rminus_0_r in Hchg, Hcost.
  assert (Hcost' : FusionBacktest.transaction_cost cols =
                   Some (Rabs (calculate_position_size (Predicted row) m) * c)
                     :: repeat (Some 0) (length rest)).
  { rewrite Hcost. f_equal. rewrite !map_map.
    rewrite <- map_const_repeat. apply map_ext.
    intros _. rewrite Rabs_R0. f_equal. lra. }
  split; [| split].
  - rewrite Hcost'. cbn [length Nat.sub]. now rewrite Nat.sub_0_r.
  - unfold FusionStats.total_cost. rewrite Hcost'.
    cbn [FusionStats.pd_sum fold_right].
    fold (FusionStats.pd_sum (repeat (Some 0) (length rest))).
    rewrite pd_sum_zeros. lra.
  - unfold FusionStats.trade_counts. rewrite Hchg.
    rewrite !map_map.
    replace (map (fun _ : Row => Some 0) rest)
      with (repeat (Some 0) (length rest))
      by (symmetry; apply map_const_repeat).
    cbn [filter]. rewrite filter_nonzero_zeros.
    destruct (FusionStats.nonzero _); cbn; lia.
Qed.

Lemma constant_prediction_costs_witness :
  [mkRow 0 1 2; mkRow 1 1 3] <> [] /\
  Forall (fun row => Predicted row = 1) [mkRow 0 1 2; mkRow 1 1 3] /\
  exists cols,
    FusionBacktest.backtest [mkRow 0 1 2; mkRow 1 1 3] 0.001 0.5 = Ok cols /\
    FusionBacktest.transaction_cost cols =
      Some (Rabs (calculate_position_size 1 0.5) * 0.001)
        :: repeat (Some 0) (length [mkRow 0 1 2; mkRow 1 1 3] - 1) /\
    FusionStats.total_cost cols =
      Rabs (calculate_position_size 1 0.5) * 0.001 * 100 /\
    (FusionStats.trade_counts cols <= 1)%nat.
Proof.
  assert (Hne : [mkRow 0 1 2; mkRow 1 1 3] <> []) by discriminate.
  assert (Hall : Forall (fun row => Predicted row = 1)
                        [mkRow 0 1 2; mkRow 1 1 3])
    by (repeat constructor).
  split; [exact Hne |]. split; [exact Hall |].
  exact (constant_prediction_costs
           [mkRow 0 1 2; mkRow 1 1 3] 0.001 0.5 1 Hne Hall).
Defined.

Lemma compound_from_nth (ds : list R) (acc : R) (i : nat) :
  (i < length ds)%nat ->
  nth_error (compound_from acc ds) i =
  Some (acc * FusionBacktest.growth (firstn (S i) ds)).
Proof.
  revert acc i. induction ds as [| d t IH]; intros acc i Hi; cbn in Hi; [lia |].
  destruct i as [| i].
  - cbn. f_equal. lra.
  - cbn [compound_from nth_error]. rewrite IH by lia.
    f_equal. change (firstn (S (S i)) (d :: t)) with (d :: firstn (S i) t).
    unfold FusionBacktest.growth. cbn [fold_right]. lra.
Qed.

(** X9.  Every entry of the cumulative-return column compounds the net
    returns up to its row: at row [i] it is, in percent, the product of
    [1 + daily_return_k] over [k <= i], less one. *)
Theorem cumulative_return_compounds (df_recent : list Row) (c m : R) :
  df_recent <> [] ->
  exists cols ds,
    FusionBacktest.backtest df_recent c m = Ok cols /\
    FusionBacktest.daily_return cols = map (@Some R) ds /\
    forall i, (i < length df_recent)%nat ->
      nth_error (FusionBacktest.cumulative_return cols) i =
      Some (Some ((FusionBacktest.growth (firstn (S i) ds) - 1) * 100)).
Proof.
  intros Hne. destruct df_recent as [| row rest]; [congruence |].
  destruct (backtest_explicit c m row rest)
    as [cols [ds [Hrun [_ [_ [_ [Hdaily [Hlen Hcum]]]]]]]].
  exists cols, ds. split; [exact Hrun |]. split; [exact Hdaily |].
  intros i Hi. rewrite Hcum, map_map. rewrite nth_error_map.
  unfold compound. rewrite compound_from_nth by lia.
  cbn. do 3 f_equal. lra.
Qed.

Lemma cumulative_return_compounds_witness :
  [mkRow 0 1 2; mkRow 1 (- (1)) 3] <> [] /\
  exists cols ds,
    FusionBacktest.backtest [mkRow 0 1 2; mkRow 1 (- (1)) 3] 0.002 0.5
    = Ok cols /\
    FusionBacktest.daily_return cols = map (@Some R) ds /\
    forall i, (i < length [mkRow 0 1 2; mkRow 1 (- (1)) 3])%nat ->
      nth_error (FusionBacktest.cumulative_return cols) i =
      Some (Some ((FusionBacktest.growth (firstn (S i) ds) - 1) * 100)).
Proof.
  split; [discriminate |].
  apply (cumulative_return_compounds
           [mkRow 0 1 2; mkRow 1 (- (1)) 3] 0.002 0.5).
  discriminate.
Defined.

Lemma position_zero (m : R) : 0 < m -> calculate_position_size 0 m = 0.
Proof.
  intros Hm. rewrite position_unclipped by exact Hm. rewrite sigma_0. lra.
Qed.

Lemma map_some_inj (xs ys : list R) :
  map (@Some R) xs = map (@Some R) ys -> xs = ys.
Proof.
  revert ys. induction xs as [| x t IH]; intros [| y t'] Heq; cbn in Heq;
    try discriminate; [reflexivity |].
  injection Heq as -> Heq. f_equal. now apply IH.
Qed.

Lemma net_returns_no_signal (rows : list Row) (c m : R) :
  0 < m ->
  Forall (fun row => Predicted row = 0) rows ->
  FusionBacktest.net_returns 0 rows c m = repeat (Some 0) (length rows).
Proof.
  intros Hm. induction 1 as [| row rest Hrow _ IH]; [reflexivity |].
  cbn [FusionBacktest.net_returns length repeat].
  rewrite Hrow, (position_zero m Hm), IH. f_equal. f_equal.
  rewrite Rminus_diag, Rabs_R0. lra.
Qed.

Lemma compound_from_zeros (n : nat) (acc : R) :
  compound_from acc (repeat 0 n) = repeat acc n.
Proof.
  revert acc. induction n as [| n IH]; intros acc; [reflexivity |].
  cbn [repeat compound_from].
  replace (acc * (1 + 0)) with acc by lra. now rewrite IH.
Qed.

Lemma map_repeat {A B : Type} (f : A -> B) (a : A) (n : nat) :
  map f (repeat a n) = repeat (f a) n.
Proof.
  induction n as [| n IH]; cbn; [reflexivity | now rewrite IH].
Qed.

(** X10.  For a positive maximum position a frame whose predictions are
    all 0 is not traded: every position is 0, so no trade is counted, the
    total cost is 0, and every daily and cumulative return is 0 whatever
    the actual values. *)
Theorem no_signal_no_trade (df_recent : list Row) (c m : R) :
  df_recent <> [] ->
  0 < m ->
  Forall (fun row => Predicted row = 0) df_recent ->
  exists cols,
    FusionBacktest.backtest df_recent c m = Ok cols /\
    FusionStats.trade_counts cols = 0%nat /\
    FusionStats.total_cost cols = 0 /\
    FusionBacktest.daily_return cols
      = repeat (Some 0) (length df_recent) /\
    FusionBacktest.cumulative_return cols
      = repeat (Some 0) (length df_recent).
Proof.
  intros Hne Hm Hall. destruct df_recent as [| row rest]; [congruence |].
  destruct (backtest_explicit c m row rest)
    as [cols [ds [Hrun [_ [Hchg [Hcost [Hdaily [Hlen Hcum]]]]]]]].
  destruct (backtest_daily_return c m row rest) as [cols' [Hrun' Hnet]].
  rewrite Hrun in Hrun'. injection Hrun' as <-.
  rewrite (net_returns_no_signal _ c m Hm Hall) in Hnet.
  assert (Hds : ds = repeat 0 (length (row :: rest))).
  { apply map_some_inj. rewrite <- Hdaily, Hnet. now rewrite map_repeat. }
  assert (Hps : Forall (fun p => p = 0)
                       (map (fun x => calculate_position_size (Predicted x) m)
                            (row :: rest))).
  { apply Forall_map. eapply Forall_impl; [| exact Hall].
    cbn. intros a ->. now apply position_zero. }
  rewrite (changes_constant _ _ Hps) in Hchg, Hcost.
  exists cols. split; [exact Hrun |].
  split; [| split; [| split; [exact Hnet |]]].
  - unfold FusionStats.trade_counts. rewrite Hchg, !map_map.
    rewrite (map_const_repeat (Some 0)), filter_nonzero_zeros. reflexivity.
  - unfold FusionStats.total_cost. rewrite Hcost, !map_map.
    replace (map (fun _ : Row => Some (Rabs 0 * c)) (row :: rest))
      with (repeat (Some 0) (length (row :: rest))).
    + rewrite pd_sum_zeros. lra.
    + rewrite <- (map_const_repeat (Some 0)). apply map_ext.
      intros _. rewrite Rabs_R0. f_equal. lra.
  - rewrite Hcum, Hds. unfold compound.
    rewrite compound_from_zeros, !map_repeat. do 2 f_equal. lra.
Qed.

Lemma no_signal_no_trade_witness :
  [mkRow 0 0 2; mkRow 1 0 3] <> [] /\
  0 < 0.5 /\
  Forall (fun row => Predicted row = 0) [mkRow 0 0 2; mkRow 1 0 3] /\
  exists cols,
    FusionBacktest.backtest [mkRow 0 0 2; mkRow 1 0 3] 0.002 0.5 = Ok cols /\
    FusionStats.trade_counts cols = 0%nat /\
    FusionStats.total_cost cols = 0 /\
    FusionBacktest.daily_return cols
      = repeat (Some 0) (length [mkRow 0 0 2; mkRow 1 0 3]) /\
    FusionBacktest.cumulative_return cols
      = repeat (Some 0) (length [mkRow 0 0 2; mkRow 1 0 3]).
Proof.
  assert (Hne : [mkRow 0 0 2; mkRow 1 0 3] <> []) by discriminate.
  assert (Hm : 0 < 0.5) by lra.
  assert (Hall : Forall (fun row => Predicted row = 0)
                        [mkRow 0 0 2; mkRow 1 0 3])
    by (repeat constructor).
  split; [exact Hne |]. split; [exact Hm |]. split; [exact Hall |].
  exact (no_signal_no_trade
           [mkRow 0 0 2; mkRow 1 0 3] 0.002 0.5 Hne Hm Hall).
Defined.

(** ** Drawdowns *)

Lemma maximum_accumulate_from_finite (cs : list R) (a : R) :
  np_maximum_accumulate_from (Some a) (map (@Some R) cs) =
  map (@Some R) (running_max_from a cs).
Proof.
  revert a. induction cs as [| c t IH]; intros a; [reflexivity |].
  cbn [map np_maximum_accumulate_from running_max_from fmax lift2].
  now rewrite IH.
Qed.

Lemma maximum_accumulate_finite (cs : list R) :
  np_maximum_accumulate (map (@Some R) cs) = map (@Some R) (running_max cs).
Proof.
  destruct cs as [| c t]; [reflexivity |].
  cbn [map np_maximum_accumulate running_max].
  now rewrite maximum_accumulate_from_finite.
Qed.

Lemma fold_fmax_finite (t : list R) (x : R) :
  fold_left fmax (map (@Some R) t) (Some x) = Some (fold_left Rmax t x).
Proof.
  revert x. induction t as [| y t IH]; intros x; [reflexivity |].
  cbn [map fold_left fmax lift2]. apply IH.
Qed.

Lemma fold_Rmax_keeps (P : R -> Prop) (t : list R) (x : R) :
  P x -> Forall P t -> P (fold_left Rmax t x).
Proof.
  revert x. induction t as [| y t IH]; intros x Hx Ht; [exact Hx |].
  inversion Ht; subst. cbn [fold_left]. apply IH; [| assumption].
  apply Rmax_case; assumption.
Qed.

Lemma fold_Rmax_ge (t : list R) (x : R) :
  x <= fold_left Rmax t x /\ Forall (fun y => y <= fold_left Rmax t x) t.
Proof.
  revert x. induction t as [| y t IH]; intros x; cbn [fold_left].
  - split; [lra | constructor].
  - destruct (IH (Rmax x y)) as [Hacc Hall].
    pose proof (Rmax_l x y). pose proof (Rmax_r x y).
    split; [lra |]. constructor; [lra | exact Hall].
Qed.

(** The drawdowns of a positive curve below a positive running maximum
    are finite and lie in [[0, 1)]. *)
Lemma drawdowns_from (cs : list R) (a : R) :
  0 < a ->
  Forall (fun c => 0 < c) cs ->
  map2 (fun m v => fdiv (fsub m v) m)
       (map (@Some R) (running_max_from a cs)) (map (@Some R) cs) =
  map (@Some R) (map2 (fun m v => (m - v) / m) (running_max_from a cs) cs) /\
  Forall (fun d => 0 <= d < 1)
         (map2 (fun m v => (m - v) / m) (running_max_from a cs) cs).
Proof.
  intros Ha Hpos. revert a Ha.
  induction Hpos as [| c t Hc _ IH]; intros a Ha.
  - split; [reflexivity | constructor].
  - cbn [running_max_from map map2].
    pose proof (Rmax_l a c) as Hl. pose proof (Rmax_r a c) as Hr.
    assert (Hm : 0 < Rmax a c) by lra.
    destruct (IH (Rmax a c) Hm) as [Heq Hall]. rewrite Heq.
    split.
    + f_equal. cbn [fsub lift2]. apply fdiv_nonzero. lra.
    + constructor; [| exact Hall]. split.
      * apply Rmult_le_pos; [lra |]. left. now apply Rinv_0_lt_compat.
      * apply (Rmult_lt_reg_r (Rmax a c)); [exact Hm |].
        unfold Rdiv. rewrite Rmult_assoc, Rinv_l by lra. lra.
Qed.

Lemma drawdown_positive_curve (c : R) (t : list R) :
  Forall (fun v => 0 < v) (c :: t) ->
  _calculate_max_drawdown (c :: t) =
  Ok (Some (fold_left Rmax
              (map2 (fun m v => (m - v) / m) (running_max_from c t) t)
              ((c - c) / c))) /\
  Forall (fun d => 0 <= d < 1)
         (map2 (fun m v => (m - v) / m) (running_max_from c t) t).
Proof.
  intros Hpos. inversion Hpos as [| ? ? Hc Ht]; subst.
  destruct (drawdowns_from t c Hc Ht) as [Heq Hall].
  split; [| exact Hall].
  unfold _calculate_max_drawdown. rewrite maximum_accumulate_finite.
  cbn [map running_max map2 np_max]. rewrite Heq.
  cbn [fsub lift2]. rewrite fdiv_nonzero by lra.
  now rewrite fold_fmax_finite.
Qed.

(** X11.  The drawdown of a portfolio curve raises exactly on the empty
    curve, and then a [ValueError]: any curve with at least one value
    yields a result. *)
Theorem max_drawdown_raises_iff_empty (portfolio_values : list R) :
  (_calculate_max_drawdown portfolio_values = Raise ValueError
   <-> portfolio_values = []) /\
  (portfolio_values <> [] ->
   exists d, _calculate_max_drawdown portfolio_values = Ok d).
Proof.
  destruct portfolio_values as [| v t].
  - split; [split; reflexivity | congruence].
  - split.
    + split; [| discriminate]. unfold _calculate_max_drawdown.
      cbn [map np_maximum_accumulate map2 np_max]. discriminate.
    + intros _. unfold _calculate_max_drawdown.
      cbn [map np_maximum_accumulate map2 np_max]. eexists. reflexivity.
Qed.

(** X12.  On a curve of positive portfolio values the maximum drawdown
    is finite and lies in [[0, 1]]: a positive portfolio never shows a
    negative drawdown nor a loss of more than the peak. *)
Theorem max_drawdown_range (portfolio_values : list R) :
  portfolio_values <> [] ->
  Forall (fun v => 0 < v) portfolio_values ->
  exists d,
    _calculate_max_drawdown portfolio_values = Ok (Some d) /\ 0 <= d <= 1.
Proof.
  intros Hne Hpos. destruct portfolio_values as [| c t]; [congruence |].
  destruct (drawdown_positive_curve c t Hpos) as [Hrun Hall].
  eexists. split; [exact Hrun |].
  apply (fold_Rmax_keeps (fun d => 0 <= d <= 1)).
  - inversion Hpos; subst. unfold Rdiv. rewrite Rminus_diag, Rmult_0_l. lra.
  - eapply Forall_impl; [| exact Hall]. cbn. intros; lra.
Qed.

Lemma max_drawdown_range_witness :
  [100; 120; 90] <> [] /\
  Forall (fun v => 0 < v) [100; 120; 90] /\
  exists d,
    _calculate_max_drawdown [100; 120; 90] = Ok (Some d) /\ 0 <= d <= 1.
Proof.
  assert (Hne : [100; 120; 90] <> []) by discriminate.
  assert (Hpos : Forall (fun v => 0 < v) [100; 120; 90])
    by (repeat constructor; lra).
  split; [exact Hne |]. split; [exact Hpos |].
  exact (max_drawdown_range [100; 120; 90] Hne Hpos).
Defined.

Lemma drawdowns_zero_iff_sorted (t : list R) (a : R) :
  0 < a ->
  Forall (fun c => 0 < c) t ->
  (Forall (fun d => d = 0)
          (map2 (fun m v => (m - v) / m) (running_max_from a t) t)
   <-> Sorted Rle (a :: t)).
Proof.
  intros Ha Hpos. revert a Ha.
  induction Hpos as [| c t Hc _ IH]; intros a Ha.
  - split; intros _; repeat constructor.
  - cbn [running_max_from map2].
    pose proof (Rmax_l a c) as Hl. pose proof (Rmax_r a c) as Hr.
    assert (Hm : 0 < Rmax a c) by lra.
    split.
    + intros Hall. inversion Hall as [| ? ? Hhead Htail]; subst.
      assert (Hmc : Rmax a c = c).
      { apply (Rmult_eq_compat_r (Rmax a c)) in Hhead.
        unfold Rdiv in Hhead.
        rewrite Rmult_assoc, Rinv_l, Rmult_0_l in Hhead by lra. lra. }
      rewrite Hmc in Htail. apply IH in Htail; [| exact Hc].
      constructor; [exact Htail |]. constructor. lra.
    + intros Hsorted. inversion Hsorted as [| ? ? Hrest Hhd]; subst.
      inversion Hhd; subst.
      assert (Hmc : Rmax a c = c) by (apply Rmax_right; assumption).
      rewrite Hmc. constructor.
      * unfold Rdiv. rewrite Rminus_diag. apply Rmult_0_l.
      * apply IH; assumption.
Qed.

Lemma fold_Rmax_zero_iff (t : list R) (x : R) :
  0 <= x ->
  Forall (fun d => 0 <= d < 1) t ->
  (fold_left Rmax t x = 0 <-> x = 0 /\ Forall (fun d => d = 0) t).
Proof.
  intros Hx Ht. destruct (fold_Rmax_ge t x) as [Hge Hall]. split.
  - intros Hz. rewrite Hz in *. split; [lra |].
    rewrite Forall_forall in *. intros d Hd.
    specialize (Hall d Hd). specialize (Ht d Hd). lra.
  - intros [-> Hzero].
    clear Hge Hall Hx Ht. induction Hzero as [| d t Hd _ IH]; [reflexivity |].
    subst d. cbn [fold_left]. rewrite Rmax_left by lra. exact IH.
Qed.

(** X13.  On a curve of positive portfolio values the maximum drawdown is
    exactly 0 if and only if the curve never falls, that is, each value is
    at least the one before it. *)
Theorem max_drawdown_zero_iff_never_falls (portfolio_values : list R) :
  portfolio_values <> [] ->
  Forall (fun v => 0 < v) portfolio_values ->
  (_calculate_max_drawdown portfolio_values = Ok (Some 0)
   <-> Sorted Rle portfolio_values).
Proof.
  intros Hne Hpos. destruct portfolio_values as [| c t]; [congruence |].
  destruct (drawdown_positive_curve c t Hpos) as [Hrun Hall].
  inversion Hpos as [| ? ? Hc Ht]; subst.
  rewrite Hrun.
  assert (Hfirst : (c - c) / c = 0)
    by (unfold Rdiv; rewrite Rminus_diag; apply Rmult_0_l).
  rewrite Hfirst.
  rewrite <- (drawdowns_zero_iff_sorted t c Hc Ht).
  split.
  - intros Heq. injection Heq as Heq.
    apply fold_Rmax_zero_iff in Heq; [tauto | lra | exact Hall].
  - intros Hzero. do 2 f_equal.
    apply fold_Rmax_zero_iff; [lra | exact Hall | tauto].
Qed.

Lemma max_drawdown_zero_iff_never_falls_witness :
  [100; 120; 120] <> [] /\
  Forall (fun v => 0 < v) [100; 120; 120] /\
  (_calculate_max_drawdown [100; 120; 120] = Ok (Some 0)
   <-> Sorted Rle [100; 120; 120]).
Proof.
  assert (Hne : [100; 120; 120] <> []) by discriminate.
  assert (Hpos : Forall (fun v => 0 < v) [100; 120; 120])
    by (repeat constructor; lra).
  split; [exact Hne |]. split; [exact Hpos |].
  exact (max_drawdown_zero_iff_never_falls [100; 120; 120] Hne Hpos).
Defined.

(** ** The financial metrics *)

Lemma np_cumprod_finite (rs : list R) (acc : R) :
  np_cumprod_from (Some acc) (map (fadd (Some 1)) (map (@Some R) rs)) =
  map (@Some R) (compound_from acc rs).
Proof.
  revert acc. induction rs as [| r t IH]; intros acc; [reflexivity |].
  cbn [map fadd fmul lift2 np_cumprod_from compound_from]. now rewrite IH.
Qed.

Lemma financial_drawdown_eq (rs : list R) :
  np_max
    (map2 (fun m c => fdiv (fsub m c) m)
       (np_maximum_accumulate
          (np_cumprod (map (fadd (Some 1)) (map (@Some R) rs))))
       (np_cumprod (map (fadd (Some 1)) (map (@Some R) rs)))) =
  _calculate_max_drawdown (compound rs).
Proof.
  unfold np_cumprod, _calculate_max_drawdown, compound.
  now rewrite np_cumprod_finite.
Qed.

(** X14.  The maximum drawdown reported by the financial metrics is the
    engine's drawdown of the compounded curve [cumprod(1 + returns)]: the
    two computations agree on every series, and fail together on the
    empty one. *)
Theorem financial_drawdown_composes (returns : list R) (risk_free_rate : R) :
  match MetricsCalculator.calculate_financial_metrics returns risk_free_rate
  with
  | Ok m =>
      _calculate_max_drawdown (compound returns)
      = Ok (MetricsCalculator.Max_Drawdown m)
  | Raise e => _calculate_max_drawdown (compound returns) = Raise e
  end.
Proof.
  unfold MetricsCalculator.calculate_financial_metrics. cbv zeta.
  rewrite financial_drawdown_eq.
  destruct (_calculate_max_drawdown (compound returns)); reflexivity.
Qed.

Lemma np_std_finite (xs : list R) :
  xs <> [] ->
  np_std (map (@Some R) xs) =
  Some (sqrt (Rsum (map (fun x => (x - Rsum xs / INR (length xs))
                                  * (x - Rsum xs / INR (length xs))) xs)
              / INR (length xs))).
Proof.
  intros Hne. unfold np_std. cbv zeta. rewrite np_mean_some by exact Hne.
  rewrite map_map.
  replace (map (fun x => fsquare (fsub (Some x)
                                       (Some (Rsum xs / INR (length xs))))) xs)
    with (map (@Some R)
              (map (fun x => (x - Rsum xs / INR (length xs))
                             * (x - Rsum xs / INR (length xs))) xs))
    by (rewrite map_map; reflexivity).
  rewrite np_mean_some by (destruct xs; [congruence | discriminate]).
  rewrite length_map. unfold fsqrt.
  destruct (Rlt_dec _ 0) as [Hneg | _]; [| reflexivity].
  exfalso.
  pose proof (Rsum_squares_nonneg (Rsum xs / INR (length xs)) xs) as Hsq.
  assert (Hn : 0 < INR (length xs)).
  { apply lt_0_INR. destruct xs; [congruence | cbn; lia]. }
  assert (0 <= Rsum (map (fun x => (x - Rsum xs / INR (length xs))
                                   * (x - Rsum xs / INR (length xs))) xs)
               / INR (length xs)).
  { apply Rmult_le_pos; [exact Hsq |]. left. now apply Rinv_0_lt_compat. }
  lra.
Qed.

Lemma np_std_nonneg (xs : list R) :
  xs <> [] -> exists s, np_std (map (@Some R) xs) = Some s /\ 0 <= s.
Proof.
  intros Hne. rewrite np_std_finite by exact Hne.
  eexists. split; [reflexivity | apply sqrt_pos].
Qed.

Lemma np_where_finite (cond : R -> bool) (xs : list R) :
  np_where_else0 cond xs =
  map (@Some R) (map (fun x => if cond x then x else 0) xs).
Proof.
  unfold np_where_else0. rewrite map_map. apply map_ext.
  intros x. destruct (cond x); reflexivity.
Qed.

Lemma compound_from_positive (rs : list R) (acc : R) :
  0 < acc ->
  Forall (fun r => -1 < r) rs ->
  Forall (fun c => 0 < c) (compound_from acc rs).
Proof.
  intros Hacc Hrs. revert acc Hacc.
  induction Hrs as [| r t Hr _ IH]; intros acc Hacc; [constructor |].
  cbn [compound_from].
  assert (0 < acc * (1 + r)) by (apply Rmult_lt_0_compat; lra).
  constructor; [assumption | now apply IH].
Qed.

Lemma sqrt_252_pos : 0 < sqrt 252.
Proof. apply sqrt_lt_R0. lra. Qed.

Lemma excess_finite (rs : list R) (k : R) :
  map (fun x => fsub x (Some k)) (map (@Some R) rs) =
  map (@Some R) (map (fun x => x - k) rs).
Proof. rewrite !map_map. reflexivity. Qed.

(** The financial metrics of a non-empty series whose compounded curve has
    a finite, non-negative drawdown. *)
Lemma financial_metrics_explicit (rs : list R) (rf d : R) :
  rs <> [] ->
  _calculate_max_drawdown (compound rs) = Ok (Some d) ->
  0 <= d ->
  exists m sd,
    MetricsCalculator.calculate_financial_metrics rs rf = Ok m /\
    np_std (np_where_else0 (fun x => Rltb x 0) rs) = Some sd /\
    0 <= sd /\
    MetricsCalculator.Annual_Return m
      = Some (Rsum rs / INR (length rs) * 252) /\
    (exists v, MetricsCalculator.Annual_Volatility m = Some v /\ 0 <= v) /\
    (exists s, MetricsCalculator.Sharpe_Ratio m = Some s) /\
    MetricsCalculator.Sortino_Ratio m
      = Some (Rsum rs / INR (length rs) * 252
              / (sd * sqrt 252 + MetricsCalculator.eps)) /\
    MetricsCalculator.Max_Drawdown m = Some d /\
    MetricsCalculator.Calmar_Ratio m
      = Some (Rsum rs / INR (length rs) * 252
              / (d + MetricsCalculator.eps)).
Proof.
  intros Hne Hd Hd0.
  assert (Heps : 0 < MetricsCalculator.eps)
    by (unfold MetricsCalculator.eps; lra).
  pose proof sqrt_252_pos as H252.
  assert (Hne' : forall f : R -> R, map f rs <> [])
    by (intros f; destruct rs; [congruence | discriminate]).
  destruct (np_std_nonneg rs Hne) as [v [Hv Hv0]].
  destruct (np_std_nonneg (map (fun x => x - rf / 252) rs) (Hne' _))
    as [se [Hse Hse0]].
  destruct (np_std_nonneg (map (fun x => if Rltb x 0 then x else 0) rs)
                          (Hne' _)) as [sd [Hsd Hsd0]].
  unfold MetricsCalculator.calculate_financial_metrics. cbv zeta.
  rewrite financial_drawdown_eq, Hd. cbn [bind].
  rewrite excess_finite, np_where_finite.
  rewrite Hv, Hse, Hsd.
  rewrite np_mean_some by exact Hne.
  rewrite np_mean_some by apply Hne'.
  eexists. exists sd. split; [reflexivity |].
  cbn [MetricsCalculator.Annual_Return MetricsCalculator.Annual_Volatility
       MetricsCalculator.Sharpe_Ratio MetricsCalculator.Sortino_Ratio
       MetricsCalculator.Max_Drawdown MetricsCalculator.Calmar_Ratio
       fmul fadd lift2].
  split; [reflexivity |]. split; [exact Hsd0 |].
  split; [reflexivity |].
  split.
  { eexists. split; [reflexivity |]. apply Rmult_le_pos; lra. }
  split.
  { rewrite fdiv_nonzero by lra. cbn [lift2]. eexists. reflexivity. }
  split.
  { apply fdiv_nonzero.
    assert (0 <= sd * sqrt 252) by (apply Rmult_le_pos; lra). lra. }
  split; [reflexivity |].
  apply fdiv_nonzero. lra.
Qed.

Lemma drawdown_positive_range (cs : list R) :
  cs <> [] ->
  Forall (fun v => 0 < v) cs ->
  exists d, _calculate_max_drawdown cs = Ok (Some d) /\ 0 <= d < 1.
Proof.
  intros Hne Hpos. destruct cs as [| c t]; [congruence |].
  destruct (drawdown_positive_curve c t Hpos) as [Hrun Hall].
  eexists. split; [exact Hrun |].
  apply (fold_Rmax_keeps (fun d => 0 <= d < 1)); [| exact Hall].
  inversion Hpos; subst. unfold Rdiv. rewrite Rminus_diag, Rmult_0_l. lra.
Qed.

Lemma drawdown_zero_of_sorted (cs : list R) :
  cs <> [] ->
  Forall (fun v => 0 < v) cs ->
  Sorted Rle cs ->
  _calculate_max_drawdown cs = Ok (Some 0).
Proof.
  intros Hne Hpos Hsorted. destruct cs as [| c t]; [congruence |].
  destruct (drawdown_positive_curve c t Hpos) as [Hrun Hall].
  inversion Hpos as [| ? ? Hc Ht]; subst.
  rewrite Hrun. do 2 f_equal.
  assert (Hfirst : (c - c) / c = 0)
    by (unfold Rdiv; rewrite Rminus_diag; apply Rmult_0_l).
  rewrite Hfirst. apply fold_Rmax_zero_iff; [lra | exact Hall |].
  split; [reflexivity |]. now apply drawdowns_zero_iff_sorted.
Qed.

Lemma compound_nonempty (rs : list R) : rs <> [] -> compound rs <> [].
Proof. destruct rs; [congruence | discriminate]. Qed.

(** X15.  For a non-empty return series in which no period loses the
    whole capital (every return above -1), all six financial metrics are
    finite; the volatility is non-negative and the maximum drawdown lies
    in [[0, 1]]. *)
Theorem financial_metrics_finite (returns : list R) (risk_free_rate : R) :
  returns <> [] ->
  Forall (fun r => -1 < r) returns ->
  exists m a v s so d ca,
    MetricsCalculator.calculate_financial_metrics returns risk_free_rate
    = Ok m /\
    MetricsCalculator.Annual_Return m = Some a /\
    MetricsCalculator.Annual_Volatility m = Some v /\
    MetricsCalculator.Sharpe_Ratio m = Some s /\
    MetricsCalculator.Sortino_Ratio m = Some so /\
    MetricsCalculator.Max_Drawdown m = Some d /\
    MetricsCalculator.Calmar_Ratio m = Some ca /\
    0 <= v /\ 0 <= d <= 1.
Proof.
  intros Hne Hrs.
  assert (Hpos : Forall (fun c => 0 < c) (compound returns))
    by (apply compound_from_positive; [lra | exact Hrs]).
  destruct (drawdown_positive_range (compound returns)
              (compound_nonempty returns Hne) Hpos) as [d [Hd Hrange]].
  destruct (financial_metrics_explicit returns risk_free_rate d Hne Hd)
    as [m [sd [Hrun [_ [_ [Ha [[v [Hv Hv0]] [[s Hs] [Hso [Hdd Hca]]]]]]]]]];
    [lra |].
  exists m. eexists. exists v, s. eexists. exists d. eexists.
  split; [exact Hrun |]. split; [exact Ha |]. split; [exact Hv |].
  split; [exact Hs |]. split; [exact Hso |]. split; [exact Hdd |].
  split; [exact Hca |]. split; [exact Hv0 | lra].
Qed.

Lemma financial_metrics_finite_witness :
  [0.01; -0.02; 0.03] <> [] /\
  Forall (fun r => -1 < r) [0.01; -0.02; 0.03] /\
  exists m a v s so d ca,
    MetricsCalculator.calculate_financial_metrics [0.01; -0.02; 0.03] 0.02
    = Ok m /\
    MetricsCalculator.Annual_Return m = Some a /\
    MetricsCalculator.Annual_Volatility m = Some v /\
    MetricsCalculator.Sharpe_Ratio m = Some s /\
    MetricsCalculator.Sortino_Ratio m = Some so /\
    MetricsCalculator.Max_Drawdown m = Some d /\
    MetricsCalculator.Calmar_Ratio m = Some ca /\
    0 <= v /\ 0 <= d <= 1.
Proof.
  assert (Hne : [0.01; -0.02; 0.03] <> []) by discriminate.
  assert (Hrs : Forall (fun r => -1 < r) [0.01; -0.02; 0.03])
    by (repeat constructor; lra).
  split; [exact Hne |]. split; [exact Hrs |].
  exact (financial_metrics_finite [0.01; -0.02; 0.03] 0.02 Hne Hrs).
Defined.

Lemma compound_from_sorted (rs : list R) (acc : R) :
  0 < acc ->
  Forall (fun r => 0 <= r) rs ->
  Sorted Rle (acc :: compound_from acc rs).
Proof.
  intros Hacc Hrs. revert acc Hacc.
  induction Hrs as [| r t Hr _ IH]; intros acc Hacc.
  - repeat constructor.
  - cbn [compound_from].
    assert (acc <= acc * (1 + r)) by nra.
    constructor; [apply IH; lra |]. constructor. assumption.
Qed.

Lemma np_std_zeros {A : Type} (xs : list A) :
  xs <> [] ->
  np_std (map (@Some R) (map (fun _ => 0) xs)) = Some 0.
Proof.
  intros Hne.
  rewrite np_std_finite by (destruct xs; [congruence | discriminate]).
  f_equal. rewrite map_map, !Rsum_const, length_map.
  replace (INR (length xs) *
           ((0 - INR (length xs) * 0 / INR (length xs))
            * (0 - INR (length xs) * 0 / INR (length xs))) / INR (length xs))
    with 0.
  - apply sqrt_0.
  - pose proof (INR_length_nonzero xs Hne). field. assumption.
Qed.

(** X16.  For a non-empty series without a losing period (every return
    non-negative) the maximum drawdown is exactly 0 and the downside
    deviation vanishes, so the Sortino and Calmar ratios are held up by
    the guard alone: both equal the annual return divided by [1e-6]. *)
Theorem financial_metrics_no_loss (returns : list R) (risk_free_rate : R) :
  returns <> [] ->
  Forall (fun r => 0 <= r) returns ->
  exists m a,
    MetricsCalculator.calculate_financial_metrics returns risk_free_rate
    = Ok m /\
    MetricsCalculator.Annual_Return m = Some a /\
    MetricsCalculator.Max_Drawdown m = Some 0 /\
    MetricsCalculator.Sortino_Ratio m = Some (a / 1e-6) /\
    MetricsCalculator.Calmar_Ratio m = Some (a / 1e-6).
Proof.
  intros Hne Hrs.
  assert (Hrs' : Forall (fun r => -1 < r) returns)
    by (eapply Forall_impl; [| exact Hrs]; cbn; intros; lra).
  assert (Hpos : Forall (fun c => 0 < c) (compound returns))
    by (apply compound_from_positive; [lra | exact Hrs']).
  assert (Hsorted : Sorted Rle (compound returns)).
  { pose proof (compound_from_sorted returns 1 ltac:(lra) Hrs) as Hs.
    inversion Hs; assumption. }
  pose proof (drawdown_zero_of_sorted (compound returns)
                (compound_nonempty returns Hne) Hpos Hsorted) as Hd.
  destruct (financial_metrics_explicit returns risk_free_rate 0 Hne Hd)
    as [m [sd [Hrun [Hsd [_ [Ha [_ [_ [Hso [Hdd Hca]]]]]]]]]]; [lra |].
  assert (Hzero : sd = 0).
  { rewrite np_where_finite in Hsd.
    replace (map (fun x => if Rltb x 0 then x else 0) returns)
      with (map (fun _ : R => 0) returns) in Hsd.
    - rewrite np_std_zeros in Hsd by exact Hne. congruence.
    - apply map_ext_in. intros x Hx. rewrite Forall_forall in Hrs.
      specialize (Hrs x Hx). unfold Rltb.
      destruct (Rlt_dec x 0); [lra | reflexivity]. }
  subst sd. exists m. eexists.
  split; [exact Hrun |]. split; [exact Ha |]. split; [exact Hdd |].
  unfold MetricsCalculator.eps in *.
  split.
  - rewrite Hso. do 2 f_equal. lra.
  - rewrite Hca. do 2 f_equal. lra.
Qed.

Lemma financial_metrics_no_loss_witness :
  [0.01; 0; 0.03] <> [] /\
  Forall (fun r => 0 <= r) [0.01; 0; 0.03] /\
  exists m a,
    MetricsCalculator.calculate_financial_metrics [0.01; 0; 0.03] 0.02
    = Ok m /\
    MetricsCalculator.Annual_Return m = Some a /\
    MetricsCalculator.Max_Drawdown m = Some 0 /\
    MetricsCalculator.Sortino_Ratio m = Some (a / 1e-6) /\
    MetricsCalculator.Calmar_Ratio m = Some (a / 1e-6).
Proof.
  assert (Hne : [0.01; 0; 0.03] <> []) by discriminate.
  assert (Hrs : Forall (fun r => 0 <= r) [0.01; 0; 0.03])
    by (repeat constructor; lra).
  split; [exact Hne |]. split; [exact Hrs |].
  exact (financial_metrics_no_loss [0.01; 0; 0.03] 0.02 Hne Hrs).
Defined.

(** ** The two drawdown conventions *)

Lemma expanding_max_from_finite (cs : list R) (a : R) :
  FusionStats.pd_expanding_max_from (Some a) (map (@Some R) cs) =
  map (@Some R) (running_max_from a cs).
Proof.
  revert a. induction cs as [| c t IH]; intros a; [reflexivity |].
  cbn [map FusionStats.pd_expanding_max_from running_max_from].
  now rewrite IH.
Qed.

Lemma expanding_max_finite (cs : list R) :
  FusionStats.pd_expanding_max (map (@Some R) cs) =
  map (@Some R) (running_max cs).
Proof.
  destruct cs as [| c t]; [reflexivity |].
  unfold FusionStats.pd_expanding_max.
  cbn [map FusionStats.pd_expanding_max_from running_max].
  now rewrite expanding_max_from_finite.
Qed.

Lemma relative_drawdowns_from (cs : list R) (a : R) :
  0 < a ->
  Forall (fun c => 0 < c) cs ->
  map2 (fun c m => fsub (fdiv c m) (Some 1))
       (map (@Some R) cs) (map (@Some R) (running_max_from a cs)) =
  map (@Some R)
      (map Ropp (map2 (fun m v => (m - v) / m) (running_max_from a cs) cs)).
Proof.
  intros Ha Hpos. revert a Ha.
  induction Hpos as [| c t Hc _ IH]; intros a Ha; [reflexivity |].
  cbn [running_max_from map map2].
  pose proof (Rmax_l a c) as Hl.
  assert (Hm : 0 < Rmax a c) by lra.
  rewrite (IH (Rmax a c) Hm). f_equal.
  rewrite fdiv_nonzero by lra. cbn [fsub lift2]. f_equal. field. lra.
Qed.

Lemma py_min_finite (t : list R) (x : R) :
  fold_left (fun cur y => if FusionStats.py_lt y cur then y else cur)
            (map (@Some R) (map Ropp t)) (Some (- x)) =
  Some (- fold_left Rmax t x).
Proof.
  revert x. induction t as [| y t IH]; intros x; [reflexivity |].
  cbn [map fold_left FusionStats.py_lt].
  unfold Rltb. destruct (Rlt_dec (- y) (- x)) as [Hlt | Hge].
  - replace (Rmax x y) with y
      by (unfold Rmax; destruct (Rle_dec x y); lra).
    apply IH.
  - replace (Rmax x y) with x
      by (unfold Rmax; destruct (Rle_dec x y); lra).
    apply IH.
Qed.

(** In exact arithmetic the script's figure is minus one hundred times
    the engine's. *)
Lemma script_drawdown_model (rs : list R) :
  rs <> [] ->
  Forall (fun r => -1 < r) rs ->
  exists e,
    _calculate_max_drawdown (compound rs) = Ok (Some e) /\
    FusionStats.calculate_max_drawdown (map (@Some R) rs)
    = Ok (Some (- e * 100)) /\
    0 <= e < 1.
Proof.
  intros Hne Hrs.
  assert (Hpos : Forall (fun c => 0 < c) (compound rs))
    by (apply compound_from_positive; [lra | exact Hrs]).
  destruct (drawdown_positive_range (compound rs)
              (compound_nonempty rs Hne) Hpos) as [e [He Hrange]].
  exists e. split; [exact He |]. split; [| exact Hrange].
  unfold FusionStats.calculate_max_drawdown. cbv zeta.
  unfold FusionBacktest.pd_cumprod. rewrite cumprod_finite.
  fold (compound rs). rewrite expanding_max_finite.
  destruct (compound rs) as [| c t] eqn:Hc;
    [exfalso; now apply (compound_nonempty rs Hne) |].
  destruct (drawdown_positive_curve c t Hpos) as [Hrun _].
  rewrite Hrun in He. injection He as He.
  inversion Hpos as [| ? ? Hc0 Ht]; subst.
  cbn [running_max map map2].
  rewrite (relative_drawdowns_from t c Hc0 Ht).
  rewrite fdiv_nonzero by lra. cbn [fsub lift2 FusionStats.py_min].
  replace (c / c - 1) with (- ((c - c) / c)) by (field; lra).
  rewrite py_min_finite. cbn [bind fmul lift2]. reflexivity.
Qed.

(** X17.  The two drawdown computations of the repository follow opposite
    conventions and vanish together: on a non-empty return series with
    every return above -1, the engine's drawdown of the compounded curve
    is a fraction in [[0, 1]], the backtest script's
    [calculate_max_drawdown] a percentage in [[-100, 0]], and one is 0
    exactly when the other is. *)
Theorem drawdown_conventions_agree (rs : list R) :
  rs <> [] ->
  Forall (fun r => -1 < r) rs ->
  exists e s,
    _calculate_max_drawdown (compound rs) = Ok (Some e) /\
    FusionStats.calculate_max_drawdown (map (@Some R) rs) = Ok (Some s) /\
    0 <= e <= 1 /\
    -100 <= s <= 0 /\
    (e = 0 <-> s = 0).
Proof.
  intros Hne Hrs.
  destruct (script_drawdown_model rs Hne Hrs) as [e [He [Hs Hrange]]].
  exists e, (- e * 100). split; [exact He |]. split; [exact Hs |].
  split; [lra |]. split; [lra |]. split; intros; lra.
Qed.

Lemma drawdown_conventions_agree_witness :
  [0.01; -0.02; 0.03] <> [] /\
  Forall (fun r => -1 < r) [0.01; -0.02; 0.03] /\
  exists e s,
    _calculate_max_drawdown (compound [0.01; -0.02; 0.03]) = Ok (Some e) /\
    FusionStats.calculate_max_drawdown (map (@Some R) [0.01; -0.02; 0.03])
    = Ok (Some s) /\
    0 <= e <= 1 /\
    -100 <= s <= 0 /\
    (e = 0 <-> s = 0).
Proof.
  assert (Hne : [0.01; -0.02; 0.03] <> []) by discriminate.
  assert (Hrs : Forall (fun r => -1 < r) [0.01; -0.02; 0.03])
    by (repeat constructor; lra).
  split; [exact Hne |]. split; [exact Hrs |].
  exact (drawdown_conventions_agree [0.01; -0.02; 0.03] Hne Hrs).
Defined.

(** ** The log of the direction-only backtest *)

Lemma step_log (predictions : list Row) (c : R) (st : BacktestEngine.State)
  (i : nat) (prev cur : Row) :
  nth_error predictions (i - 1) = Some prev ->
  nth_error predictions i = Some cur ->
  exists st' t,
    BacktestEngine.step predictions c st i = Ok st' /\
    BacktestEngine.st_trades st' = BacktestEngine.st_trades st ++ [t] /\
    BacktestEngine.st_daily_returns st' =
      BacktestEngine.st_daily_returns st ++ [BacktestEngine.returns t] /\
    BacktestEngine.st_position st' = BacktestEngine.signal t /\
    BacktestEngine.portfolio t = BacktestEngine.st_portfolio st' /\
    BacktestEngine.date t = Date cur /\
    (BacktestEngine.signal t = 0%nat \/ BacktestEngine.signal t = 1%nat).
Proof.
  intros Hprev Hcur. unfold BacktestEngine.step, BacktestEngine.iloc.
  rewrite Hprev, Hcur. cbn [bind]. unfold Rltb.
  destruct (Rlt_dec (Predicted prev) (Predicted cur));
    destruct (Nat.eqb (BacktestEngine.st_position st) _) eqn:Heq;
    cbn [negb]; try (apply Nat.eqb_eq in Heq; rewrite Heq);
    cbn [Nat.eqb negb]; do 2 eexists; (split; [reflexivity |]);
    cbn; rewrite last_last; auto 10.
Qed.

(** X18.  After every pass the log of the direction-only backtest is
    consistent: there are as many daily returns as trades, the return
    written into each trade is the matching entry of the returns array,
    every signal is 0 or 1, and the position held is 0 or 1. *)
Theorem trade_log_consistent (predictions : list Row) (c capital : R)
  (k : nat) :
  (k <= length predictions - 1)%nat ->
  exists st,
    BacktestEngine.state_after predictions c capital k = Ok st /\
    length (BacktestEngine.st_daily_returns st) = k /\
    map BacktestEngine.returns (BacktestEngine.st_trades st) =
      BacktestEngine.st_daily_returns st /\
    Forall (fun t => BacktestEngine.signal t = 0%nat
                     \/ BacktestEngine.signal t = 1%nat)
           (BacktestEngine.st_trades st) /\
    (BacktestEngine.st_position st = 0%nat
     \/ BacktestEngine.st_position st = 1%nat).
Proof.
  induction k as [| k IH]; intros Hk.
  - eexists. split; [reflexivity |]. cbn. auto.
  - destruct IH as [st [Hst [Hlen [Hmap [Hsig _]]]]]; [lia |].
    destruct (rows_in_range predictions (S k)) as [prev [cur [Hprev Hcur]]];
      [lia |].
    destruct (step_log predictions c st (S k) prev cur Hprev Hcur)
      as [st' [t [Hstep [Htr [Hdr [Hpos [_ [_ Hbit]]]]]]]].
    exists st'. rewrite state_after_S, Hst. cbn [bind].
    split; [exact Hstep |].
    rewrite Htr, Hdr, length_app, map_app, Hmap, Hlen, Hpos.
    split; [cbn; lia |]. split; [reflexivity |].
    split; [| exact Hbit].
    apply Forall_app. split; [exact Hsig |]. now constructor.
Qed.

Lemma trade_log_consistent_witness :
  (1 <= length [mkRow 0 1 10; mkRow 1 2 11] - 1)%nat /\
  exists st,
    BacktestEngine.state_after [mkRow 0 1 10; mkRow 1 2 11] 0.001 1000 1
    = Ok st /\
    length (BacktestEngine.st_daily_returns st) = 1%nat /\
    map BacktestEngine.returns (BacktestEngine.st_trades st) =
      BacktestEngine.st_daily_returns st /\
    Forall (fun t => BacktestEngine.signal t = 0%nat
                     \/ BacktestEngine.signal t = 1%nat)
           (BacktestEngine.st_trades st) /\
    (BacktestEngine.st_position st = 0%nat
     \/ BacktestEngine.st_position st = 1%nat).
Proof.
  split; [cbn; lia |].
  apply (trade_log_consistent [mkRow 0 1 10; mkRow 1 2 11] 0.001 1000 1).
  cbn; lia.
Defined.

(** X19.  When no prediction exceeds the one before it, the
    direction-only backtest never enters a position: after every pass the
    portfolio is still the initial capital, no cost has been charged, and
    every recorded signal and daily return is 0. *)
Theorem never_rising_never_trades (predictions : list Row) (c capital : R)
  (k : nat) :
  (forall i prev cur,
      nth_error predictions i = Some prev ->
      nth_error predictions (S i) = Some cur ->
      Predicted cur <= Predicted prev) ->
  (k <= length predictions - 1)%nat ->
  exists st,
    BacktestEngine.state_after predictions c capital k = Ok st /\
    BacktestEngine.st_portfolio st = Some capital /\
    BacktestEngine.st_position st = 0%nat /\
    BacktestEngine.st_daily_returns st = repeat (Some 0) k /\
    Forall (fun t => BacktestEngine.signal t = 0%nat /\
                     BacktestEngine.portfolio t = Some capital /\
                     BacktestEngine.returns t = Some 0)
           (BacktestEngine.st_trades st).
Proof.
  intros Hflat. induction k as [| k IH]; intros Hk.
  - eexists. split; [reflexivity |]. cbn. auto.
  - destruct IH as [st [Hst [Hport [Hpos [Hdr Hlog]]]]]; [lia |].
    destruct (rows_in_range predictions (S k)) as [prev [cur [Hprev Hcur]]];
      [lia |].
    pose proof Hprev as Hprev'. cbn [Nat.sub] in Hprev'.
    rewrite Nat.sub_0_r in Hprev'.
    pose proof (Hflat k prev cur Hprev' Hcur) as Hle.
    destruct (step_spec predictions c st (S k) prev cur Hprev Hcur)
      as [st' [Hstep [Hpos' [Hport' Htr']]]].
    destruct (step_log predictions c st (S k) prev cur Hprev Hcur)
      as [st'' [t [Hstep' [Htr [Hdr' _]]]]].
    rewrite Hstep in Hstep'. injection Hstep' as <-.
    cbv zeta in Hpos', Hport', Htr'.
    destruct (Rlt_dec (Predicted prev) (Predicted cur)) as [Hup | _];
      [lra |].
    rewrite Hpos in Hport'. cbn in Hport'. rewrite Hport in Hport'.
    rewrite Htr' in Htr. apply app_inj_tail in Htr. destruct Htr as [_ Ht].
    subst t. cbn [BacktestEngine.returns] in Hdr'.
    exists st'. rewrite state_after_S, Hst. cbn [bind].
    split; [exact Hstep |]. split; [exact Hport' |].
    split; [exact Hpos' |]. split.
    + rewrite Hdr', Hdr. change (S k) with (1 + k)%nat.
      rewrite Nat.add_comm, repeat_app. reflexivity.
    + rewrite Htr'. apply Forall_app. split; [exact Hlog |].
      constructor; [| constructor]. cbn. auto.
Qed.

Lemma never_rising_never_trades_witness :
  (forall i prev cur,
      nth_error [mkRow 0 2 10; mkRow 1 1 11] i = Some prev ->
      nth_error [mkRow 0 2 10; mkRow 1 1 11] (S i) = Some cur ->
      Predicted cur <= Predicted prev) /\
  (1 <= length [mkRow 0 2 10; mkRow 1 1 11] - 1)%nat /\
  exists st,
    BacktestEngine.state_after [mkRow 0 2 10; mkRow 1 1 11] 0.001 1000 1
    = Ok st /\
    BacktestEngine.st_portfolio st = Some 1000 /\
    BacktestEngine.st_position st = 0%nat /\
    BacktestEngine.st_daily_returns st = repeat (Some 0) 1 /\
    Forall (fun t => BacktestEngine.signal t = 0%nat /\
                     BacktestEngine.portfolio t = Some 1000 /\
                     BacktestEngine.returns t = Some 0)
           (BacktestEngine.st_trades st).
Proof.
  assert (Hflat : forall i prev cur,
             nth_error [mkRow 0 2 10; mkRow 1 1 11] i = Some prev ->
             nth_error [mkRow 0 2 10; mkRow 1 1 11] (S i) = Some cur ->
             Predicted cur <= Predicted prev).
  { intros [| [| i]] prev cur Hp Hc; cbn in Hp, Hc.
    - injection Hp as <-. injection Hc as <-. cbn. lra.
    - discriminate.
    - discriminate. }
  assert (Hk : (1 <= length [mkRow 0 2 10; mkRow 1 1 11] - 1)%nat)
    by (cbn; lia).
  split; [exact Hflat |]. split; [exact Hk |].
  exact (never_rising_never_trades
           [mkRow 0 2 10; mkRow 1 1 11] 0.001 1000 1 Hflat Hk).
Defined.

(** X20.  When every prediction exceeds the one before it and no actual
    value is zero, the direction-only backtest buys at the first pass and
    holds: after pass [k >= 1] the portfolio is the initial capital, less
    one transaction cost, times the ratio of the current actual value to
    the first one. *)
Theorem always_rising_buy_and_hold (predictions : list Row) (c capital : R)
  (k : nat) :
  (forall i prev cur,
      nth_error predictions i = Some prev ->
      nth_error predictions (S i) = Some cur ->
      Predicted prev < Predicted cur) ->
  Forall (fun row => Actual row <> 0) predictions ->
  (1 <= k <= length predictions - 1)%nat ->
  exists st first cur,
    nth_error predictions 0 = Some first /\
    nth_error predictions k = Some cur /\
    BacktestEngine.state_after predictions c capital k = Ok st /\
    BacktestEngine.st_position st = 1%nat /\
    BacktestEngine.st_portfolio st =
      Some (capital * (1 - c) * (Actual cur / Actual first)).
Proof.
  intros Hup Hnz Hk.
  destruct (nth_error predictions 0) as [first |] eqn:Hfirst;
    [| apply nth_error_None in Hfirst; lia].
  assert (Hnz' : forall i row, nth_error predictions i = Some row ->
                               Actual row <> 0).
  { intros i row Hrow. rewrite Forall_forall in Hnz. apply Hnz.
    eapply nth_error_In; eassumption. }
  destruct Hk as [Hk1 Hkn]. induction k as [| k IH]; [lia |].
  destruct (rows_in_range predictions (S k)) as [prev [cur [Hprev Hcur]]];
    [lia |].
  pose proof Hprev as Hprev'. cbn [Nat.sub] in Hprev'.
  rewrite Nat.sub_0_r in Hprev'.
  pose proof (Hup k prev cur Hprev' Hcur) as Hlt.
  pose proof (Hnz' _ _ Hprev') as Hap.
  pose proof (Hnz' _ _ Hfirst) as Ha0.
  destruct k as [| k].
  - rewrite Hfirst in Hprev'. injection Hprev' as <-.
    destruct (step_spec predictions c (BacktestEngine.initial capital)
                1 first cur Hprev Hcur) as [st' [Hstep [Hpos [Hport _]]]].
    cbv zeta in Hpos, Hport.
    destruct (Rlt_dec (Predicted first) (Predicted cur)); [| lra].
    exists st', first, cur. split; [reflexivity |]. split; [exact Hcur |].
    split; [| split; [exact Hpos |]].
    + rewrite state_after_S. cbn [BacktestEngine.state_after seq
        BacktestEngine.for_each bind]. exact Hstep.
    + rewrite Hport, fdiv_nonzero by exact Ha0.
      cbn. f_equal. field. exact Ha0.
  - destruct IH as [st [first' [prev' [Hf' [Hp' [Hst [Hpos Hport]]]]]]];
      [lia | lia |].
    injection Hf' as <-. rewrite Hprev' in Hp'. injection Hp' as <-.
    destruct (step_spec predictions c st (S (S k)) prev cur Hprev Hcur)
      as [st' [Hstep [Hpos' [Hport' _]]]].
    cbv zeta in Hpos', Hport'.
    destruct (Rlt_dec (Predicted prev) (Predicted cur)); [| lra].
    exists st', first, cur. split; [reflexivity |]. split; [exact Hcur |].
    split; [| split; [exact Hpos' |]].
    + rewrite state_after_S, Hst. cbn [bind]. exact Hstep.
    + rewrite Hport', Hpos, Hport, fdiv_nonzero by exact Hap.
      cbn. f_equal. field. split; assumption.
Qed.

Lemma always_rising_buy_and_hold_witness :
  (forall i prev cur,
      nth_error [mkRow 0 1 10; mkRow 1 2 11] i = Some prev ->
      nth_error [mkRow 0 1 10; mkRow 1 2 11] (S i) = Some cur ->
      Predicted prev < Predicted cur) /\
  Forall (fun row => Actual row <> 0) [mkRow 0 1 10; mkRow 1 2 11] /\
  (1 <= 1 <= length [mkRow 0 1 10; mkRow 1 2 11] - 1)%nat /\
  exists st first cur,
    nth_error [mkRow 0 1 10; mkRow 1 2 11] 0 = Some first /\
    nth_error [mkRow 0 1 10; mkRow 1 2 11] 1 = Some cur /\
    BacktestEngine.state_after [mkRow 0 1 10; mkRow 1 2 11] 0.001 1000 1
    = Ok st /\
    BacktestEngine.st_position st = 1%nat /\
    BacktestEngine.st_portfolio st =
      Some (1000 * (1 - 0.001) * (Actual cur / Actual first)).
Proof.
  assert (Hup : forall i prev cur,
             nth_error [mkRow 0 1 10; mkRow 1 2 11] i = Some prev ->
             nth_error [mkRow 0 1 10; mkRow 1 2 11] (S i) = Some cur ->
             Predicted prev < Predicted cur).
  { intros [| [| i]] prev cur Hp Hc; cbn in Hp, Hc.
    - injection Hp as <-. injection Hc as <-. cbn. lra.
    - discriminate.
    - discriminate. }
  assert (Hnz : Forall (fun row => Actual row <> 0)
                       [mkRow 0 1 10; mkRow 1 2 11])
    by (repeat constructor; cbn; lra).
  assert (Hk : (1 <= 1 <= length [mkRow 0 1 10; mkRow 1 2 11] - 1)%nat)
    by (cbn; lia).
  split; [exact Hup |]. split; [exact Hnz |]. split; [exact Hk |].
  exact (always_rising_buy_and_hold
           [mkRow 0 1 10; mkRow 1 2 11] 0.001 1000 1 Hup Hnz Hk).
Defined.

(** ** The prediction metrics on arrays of equal length *)

Lemma broadcast2_same_length {A B C : Type} (f : A -> B -> C)
  (xs : list A) (ys : list B) :
  length xs = length ys -> broadcast2 f xs ys = Ok (map2 f xs ys).
Proof.
  intros Hlen. unfold broadcast2. rewrite Hlen, Nat.eqb_refl. reflexivity.
Qed.

Lemma map2_length_same {A B C : Type} (f : A -> B -> C)
  (xs : list A) (ys : list B) :
  length xs = length ys -> length (map2 f xs ys) = length xs.
Proof.
  intros Hlen. rewrite map2_length, Hlen. apply Nat.min_id.
Qed.

Lemma removelast_len {A : Type} (xs : list A) :
  length (removelast xs) = (length xs - 1)%nat.
Proof.
  induction xs as [| x [| y t] IH]; try reflexivity.
  change (removelast (x :: y :: t)) with (x :: removelast (y :: t)).
  cbn [length] in *. rewrite IH. lia.
Qed.

Lemma np_diff_length (xs : list fval) :
  length (np_diff xs) = (length xs - 1)%nat.
Proof.
  unfold np_diff. rewrite map2_length.
  destruct xs as [| x t]; [reflexivity |].
  cbn [tl]. rewrite removelast_len. cbn [length]. lia.
Qed.

(** The dictionary returned for two arrays of equal length, entry by
    entry, over the errors [actual - predicted]. *)
Lemma prediction_metrics_explicit (actual predicted : list R) :
  length actual = length predicted ->
  exists m,
    MetricsCalculator.calculate_prediction_metrics actual predicted = Ok m /\
    MetricsCalculator.MSE m =
      np_mean (map (@Some R)
                   (map (fun e => e * e) (map2 Rminus actual predicted))) /\
    MetricsCalculator.RMSE m = fsqrt (MetricsCalculator.MSE m) /\
    MetricsCalculator.MAE m =
      np_mean (map (@Some R) (map Rabs (map2 Rminus actual predicted))) /\
    MetricsCalculator.MAPE m =
      fmul (np_mean
              (map fabs
                 (map2 fdiv (map (@Some R) (map2 Rminus actual predicted))
                       (map (@Some R) (map Rabs actual)))))
           (Some 100) /\
    MetricsCalculator.R2 m =
      fsub (Some 1)
        (fdiv (Some (Rsum (map (fun e => e * e)
                               (map2 Rminus actual predicted))))
              (np_sum (map (fun x => fsquare
                                       (fsub x (np_mean (map (@Some R) actual))))
                           (map (@Some R) actual)))) /\
    MetricsCalculator.Direction_Accuracy m =
      fmul (np_mean_bool
              (map2 feqb (map fsign (np_diff (map (@Some R) actual)))
                    (map fsign (np_diff (map (@Some R) predicted)))))
           (Some 100).
Proof.
  intros Hlen.
  assert (Herr : map2 fsub (map (@Some R) actual) (map (@Some R) predicted)
                 = map (@Some R) (map2 Rminus actual predicted))
    by apply map2_lift2.
  unfold MetricsCalculator.calculate_prediction_metrics. cbv zeta.
  rewrite (broadcast2_same_length fsub) by (now rewrite !length_map).
  cbn [bind]. rewrite Herr.
  rewrite (broadcast2_same_length fdiv)
    by (rewrite !length_map; now apply map2_length_same).
  cbn [bind].
  rewrite (broadcast2_same_length feqb)
    by (rewrite !length_map, !np_diff_length, !length_map; now rewrite Hlen).
  cbn [bind]. eexists. split; [reflexivity |].
  cbn [MetricsCalculator.MSE MetricsCalculator.RMSE MetricsCalculator.MAE
       MetricsCalculator.MAPE MetricsCalculator.R2
       MetricsCalculator.Direction_Accuracy].
  assert (Hsq : map fsquare (map (@Some R) (map2 Rminus actual predicted))
                = map (@Some R)
                      (map (fun e => e * e) (map2 Rminus actual predicted)))
    by (rewrite !map_map; reflexivity).
  assert (Habs : forall xs, map fabs (map (@Some R) xs)
                            = map (@Some R) (map Rabs xs))
    by (intros xs; rewrite !map_map; reflexivity).
  rewrite Hsq, !Habs, np_sum_some.
  repeat split; reflexivity.
Qed.

(** X21.  Arrays of different lengths, neither of length one, are
    rejected: the first subtraction cannot broadcast them and the
    prediction metrics raise [ValueError]. *)
Theorem prediction_metrics_length_mismatch (actual predicted : list R) :
  length actual <> length predicted ->
  length actual <> 1%nat ->
  length predicted <> 1%nat ->
  MetricsCalculator.calculate_prediction_metrics actual predicted
  = Raise ValueError.
Proof.
  intros Hdiff Ha Hp.
  unfold MetricsCalculator.calculate_prediction_metrics. cbv zeta.
  unfold broadcast2 at 1. rewrite !length_map.
  apply Nat.eqb_neq in Hdiff. rewrite Hdiff.
  destruct actual as [| a [| a' ta]]; destruct predicted as [| p [| p' tp]];
    cbn in Ha, Hp, Hdiff; try congruence; reflexivity.
Qed.

Lemma prediction_metrics_length_mismatch_witness :
  length [1; 2; 3] <> length [1; 2] /\
  length [1; 2; 3] <> 1%nat /\
  length [1; 2] <> 1%nat /\
  MetricsCalculator.calculate_prediction_metrics [1; 2; 3] [1; 2]
  = Raise ValueError.
Proof.
  assert (H1 : length [1; 2; 3] <> length [1; 2]) by (cbn; lia).
  assert (H2 : length [1; 2; 3] <> 1%nat) by (cbn; lia).
  assert (H3 : length [1; 2] <> 1%nat) by (cbn; lia).
  split; [exact H1 |]. split; [exact H2 |]. split; [exact H3 |].
  exact (prediction_metrics_length_mismatch [1; 2; 3] [1; 2] H1 H2 H3).
Defined.

Lemma Rsum_sq_nonneg (es : list R) : 0 <= Rsum (map (fun e => e * e) es).
Proof.
  unfold Rsum. induction es as [| e t IH]; cbn [map fold_right]; [lra |].
  pose proof (Rle_0_sqr e) as Hsq. unfold Rsqr in Hsq. lra.
Qed.

Lemma Rsum_sq_zero (es : list R) :
  Rsum (map (fun e => e * e) es) = 0 <-> Forall (fun e => e = 0) es.
Proof.
  unfold Rsum. induction es as [| e t IH]; cbn [map fold_right].
  - split; [constructor | reflexivity].
  - pose proof (Rsum_sq_nonneg t) as Ht. unfold Rsum in Ht.
    pose proof (Rle_0_sqr e) as Hsq. unfold Rsqr in Hsq. split.
    + intros Hsum. assert (He : e * e = 0) by lra.
      apply Rmult_integral in He. constructor; [lra |]. apply IH. lra.
    + inversion 1 as [| ? ? He Hrest]; subst.
      apply IH in Hrest. rewrite Hrest. lra.
Qed.

Lemma Rsum_abs_nonneg (es : list R) : 0 <= Rsum (map Rabs es).
Proof.
  unfold Rsum. induction es as [| e t IH]; cbn [map fold_right]; [lra |].
  pose proof (Rabs_pos e). lra.
Qed.

Lemma errors_zero_iff (actual predicted : list R) :
  length actual = length predicted ->
  (Forall (fun e => e = 0) (map2 Rminus actual predicted)
   <-> predicted = actual).
Proof.
  revert predicted. induction actual as [| a ta IH]; intros [| p tp] Hlen;
    cbn in Hlen; try discriminate.
  - split; [reflexivity | constructor].
  - cbn [map2]. injection Hlen as Hlen. split.
    + inversion 1 as [| ? ? He Hrest]; subst.
      apply IH in Hrest; [| exact Hlen]. subst. f_equal. lra.
    + intros Heq. injection Heq as -> ->. constructor; [lra |].
      apply IH; [exact Hlen | reflexivity].
Qed.

(** X22.  On two non-empty arrays of equal length the error metrics
    [MSE], [RMSE] and [MAE] are finite and not negative, and [MSE] is 0
    exactly when the prediction equals the actual series. *)
Theorem error_metrics_relations (actual predicted : list R) :
  actual <> [] ->
  length actual = length predicted ->
  exists m mse rmse mae,
    MetricsCalculator.calculate_prediction_metrics actual predicted = Ok m /\
    MetricsCalculator.MSE m = Some mse /\
    MetricsCalculator.RMSE m = Some rmse /\
    MetricsCalculator.MAE m = Some mae /\
    0 <= mse /\
    0 <= rmse /\
    0 <= mae /\
    (mse = 0 <-> predicted = actual).
Proof.
  intros Hne Hlen.
  destruct (prediction_metrics_explicit actual predicted Hlen)
    as [m [Hrun [Hmse [Hrmse [Hmae _]]]]].
  set (errs := map2 Rminus actual predicted) in *.
  assert (Hn : length errs = length actual)
    by (unfold errs; now apply map2_length_same).
  assert (Hpos : 0 < INR (length errs)).
  { rewrite Hn. apply lt_0_INR. destruct actual; [congruence | cbn; lia]. }
  assert (Herrs : forall f : R -> R, map f errs <> []).
  { intros f Hnil. apply (f_equal (@length R)) in Hnil.
    rewrite length_map, Hn in Hnil. destruct actual; [congruence | discriminate]. }
  rewrite np_mean_some, length_map in Hmse by apply Herrs.
  rewrite np_mean_some, length_map in Hmae by apply Herrs.
  set (Q := Rsum (map (fun e => e * e) errs)) in *.
  set (S := Rsum (map Rabs errs)) in *.
  pose proof (Rsum_sq_nonneg errs) as HQ. fold Q in HQ.
  pose proof (Rsum_abs_nonneg errs) as HS. fold S in HS.
  assert (Hinv : 0 < / INR (length errs)) by now apply Rinv_0_lt_compat.
  assert (Hmse0 : 0 <= Q / INR (length errs))
    by (apply Rmult_le_pos; lra).
  assert (Hmae0 : 0 <= S / INR (length errs))
    by (apply Rmult_le_pos; lra).
  rewrite Hmse in Hrmse. unfold fsqrt in Hrmse.
  destruct (Rlt_dec (Q / INR (length errs)) 0) as [Hneg | _]; [lra |].
  exists m, (Q / INR (length errs)), (sqrt (Q / INR (length errs))),
    (S / INR (length errs)).
  split; [exact Hrun |]. split; [exact Hmse |]. split; [exact Hrmse |].
  split; [exact Hmae |]. split; [exact Hmse0 |].
  split; [apply sqrt_pos |]. split; [exact Hmae0 |].
  rewrite <- (errors_zero_iff actual predicted Hlen).
  fold errs. rewrite <- Rsum_sq_zero. fold Q. split.
  - intros Hz. apply (Rmult_eq_compat_r (INR (length errs))) in Hz.
    unfold Rdiv in Hz. rewrite Rmult_assoc, Rinv_l, Rmult_0_l in Hz by lra.
    lra.
  - intros ->. unfold Rdiv. apply Rmult_0_l.
Qed.

Lemma error_metrics_relations_witness :
  [100; 110] <> [] /\
  length [100; 110] = length [101; 108] /\
  exists m mse rmse mae,
    MetricsCalculator.calculate_prediction_metrics [100; 110] [101; 108]
    = Ok m /\
    MetricsCalculator.MSE m = Some mse /\
    MetricsCalculator.RMSE m = Some rmse /\
    MetricsCalculator.MAE m = Some mae /\
    0 <= mse /\
    0 <= rmse /\
    0 <= mae /\
    (mse = 0 <-> [101; 108] = [100; 110]).
Proof.
  assert (Hne : [100; 110] <> []) by discriminate.
  assert (Hlen : length [100; 110] = length [101; 108]) by reflexivity.
  split; [exact Hne |]. split; [exact Hlen |].
  exact (error_metrics_relations [100; 110] [101; 108] Hne Hlen).
Defined.

Lemma ss_total_explicit (actual : list R) :
  actual <> [] ->
  np_sum (map (fun x => fsquare (fsub x (np_mean (map (@Some R) actual))))
              (map (@Some R) actual)) =
  Some (Rsum (map (fun x => (x - Rsum actual / INR (length actual))
                            * (x - Rsum actual / INR (length actual)))
                  actual)).
Proof.
  intros Hne. rewrite np_mean_some by exact Hne.
  rewrite map_map, <- np_sum_some. f_equal. rewrite map_map. reflexivity.
Qed.

Lemma Rsum_all_equal (v : R) (xs : list R) :
  Forall (fun x => x = v) xs -> Rsum xs = INR (length xs) * v.
Proof.
  unfold Rsum. induction 1 as [| x t Hx _ IH]; [cbn; lra |].
  change (length (x :: t)) with (S (length t)). rewrite S_INR.
  cbn [fold_right]. rewrite IH, Hx. lra.
Qed.

Lemma ss_total_zero_iff (actual : list R) :
  actual <> [] ->
  (Rsum (map (fun x => (x - Rsum actual / INR (length actual))
                       * (x - Rsum actual / INR (length actual))) actual) = 0
   <-> exists v, Forall (fun x => x = v) actual).
Proof.
  intros Hne. split.
  - intros Hz. eexists. apply Rsum_squares_zero. exact Hz.
  - intros [v Hall]. rewrite (Rsum_all_equal v actual Hall).
    pose proof (INR_length_nonzero actual Hne) as Hn.
    replace (INR (length actual) * v / INR (length actual)) with v
      by (field; exact Hn).
    clear Hn Hne. unfold Rsum.
    induction Hall as [| a t Ha _ IH]; [reflexivity |].
    cbn [map fold_right]. rewrite IH, Ha. lra.
Qed.

(** X23.  On arrays of equal length whose actual values are not all the
    same, [R2] is finite and at most 1. *)
Theorem r2_at_most_one (actual predicted : list R) :
  length actual = length predicted ->
  (exists x y, In x actual /\ In y actual /\ x <> y) ->
  exists m r2,
    MetricsCalculator.calculate_prediction_metrics actual predicted = Ok m /\
    MetricsCalculator.R2 m = Some r2 /\
    r2 <= 1.
Proof.
  intros Hlen [x [y [Hx [Hy Hxy]]]].
  assert (Hne : actual <> []) by (destruct actual; [destruct Hx | discriminate]).
  destruct (prediction_metrics_explicit actual predicted Hlen)
    as [m [Hrun [_ [_ [_ [_ [Hr2 _]]]]]]].
  rewrite ss_total_explicit in Hr2 by exact Hne.
  set (T := Rsum (map (fun x => (x - Rsum actual / INR (length actual))
                                * (x - Rsum actual / INR (length actual)))
                      actual)) in *.
  set (Q := Rsum (map (fun e => e * e) (map2 Rminus actual predicted))) in *.
  assert (HT : 0 < T).
  { pose proof (Rsum_squares_nonneg (Rsum actual / INR (length actual)) actual)
      as Hge. fold T in Hge.
    destruct (Req_dec_T T 0) as [Hz | Hnz]; [| lra].
    exfalso. apply Rsum_squares_zero in Hz. rewrite Forall_forall in Hz.
    apply Hxy. rewrite (Hz x Hx), (Hz y Hy). reflexivity. }
  pose proof (Rsum_sq_nonneg (map2 Rminus actual predicted)) as HQ. fold Q in HQ.
  rewrite fdiv_nonzero in Hr2 by lra. cbn [fsub lift2] in Hr2.
  assert (Hinv : 0 < / T) by now apply Rinv_0_lt_compat.
  assert (Hratio : 0 <= Q / T) by (apply Rmult_le_pos; lra).
  exists m, (1 - Q / T). split; [exact Hrun |]. split; [exact Hr2 |].
  lra.
Qed.

Lemma r2_at_most_one_witness :
  length [100; 110] = length [101; 108] /\
  (exists x y, In x [100; 110] /\ In y [100; 110] /\ x <> y) /\
  exists m r2,
    MetricsCalculator.calculate_prediction_metrics [100; 110] [101; 108]
    = Ok m /\
    MetricsCalculator.R2 m = Some r2 /\
    r2 <= 1.
Proof.
  assert (Hlen : length [100; 110] = length [101; 108]) by reflexivity.
  assert (Hvar : exists x y, In x [100; 110] /\ In y [100; 110] /\ x <> y).
  { exists 100, 110. cbn. repeat split; [auto | auto | lra]. }
  split; [exact Hlen |]. split; [exact Hvar |].
  exact (r2_at_most_one [100; 110] [101; 108] Hlen Hvar).
Defined.

(** X24.  On arrays of equal length with at most one element [R2] is
    not finite: the total sum of squares is 0 and the division is not
    guarded. *)
Theorem r2_undefined_single_sample (actual predicted : list R) :
  length actual = length predicted ->
  (length actual <= 1)%nat ->
  exists m,
    MetricsCalculator.calculate_prediction_metrics actual predicted = Ok m /\
    MetricsCalculator.R2 m = None.
Proof.
  intros Hlen Hshort.
  destruct (prediction_metrics_explicit actual predicted Hlen)
    as [m [Hrun [_ [_ [_ [_ [Hr2 _]]]]]]].
  exists m. split; [exact Hrun |]. rewrite Hr2.
  destruct actual as [| a [| b t]]; [| | cbn in Hshort; lia].
  - cbn. destruct (Req_dec_T 0 0); [reflexivity | congruence].
  - assert (Hne : [a] <> []) by discriminate.
    rewrite ss_total_explicit by exact Hne.
    assert (Hz : Rsum (map (fun x => (x - Rsum [a] / INR (length [a]))
                                     * (x - Rsum [a] / INR (length [a])))
                           [a]) = 0).
    { apply (ss_total_zero_iff [a] Hne). exists a. repeat constructor. }
    rewrite Hz. unfold fdiv.
    destruct (Req_dec_T 0 0); [reflexivity | congruence].
Qed.

Lemma r2_undefined_single_sample_witness :
  length [100] = length [101] /\
  (length [100] <= 1)%nat /\
  exists m,
    MetricsCalculator.calculate_prediction_metrics [100] [101] = Ok m /\
    MetricsCalculator.R2 m = None.
Proof.
  assert (Hlen : length [100] = length [101]) by reflexivity.
  assert (Hshort : (length [100] <= 1)%nat) by (cbn; lia).
  split; [exact Hlen |]. split; [exact Hshort |].
  exact (r2_undefined_single_sample [100] [101] Hlen Hshort).
Defined.

Lemma np_sum_none_iff (xs : list fval) : np_sum xs = None <-> In None xs.
Proof.
  unfold np_sum. induction xs as [| x t IH]; cbn [fold_right In].
  - split; [discriminate | contradiction].
  - destruct x as [a |]; cbn [fadd lift2].
    + destruct (fold_right fadd (Some 0) t) as [b |] eqn:Hsum.
      * split; [discriminate |]. intros [Hbad | Hin]; [discriminate |].
        apply IH in Hin. discriminate.
      * split; [| reflexivity]. intros _. right. now apply IH.
    + split; [intros _; now left | reflexivity].
Qed.

Lemma np_mean_none_iff (xs : list fval) :
  xs <> [] -> (np_mean xs = None <-> In None xs).
Proof.
  intros Hne. rewrite <- np_sum_none_iff. unfold np_mean, fdiv.
  destruct (np_sum xs) as [s |]; [| tauto].
  destruct (Req_dec_T (INR (length xs)) 0) as [Hz | _].
  - exfalso. now apply (INR_length_nonzero xs Hne).
  - split; discriminate.
Qed.

Lemma ratios_none_iff (es ds : list R) :
  length es = length ds ->
  (In None (map fabs (map2 fdiv (map (@Some R) es) (map (@Some R) ds)))
   <-> Exists (fun d => d = 0) ds).
Proof.
  revert ds. induction es as [| e te IH]; intros [| d td] Hlen;
    cbn in Hlen; try discriminate.
  - cbn. split; [contradiction | inversion 1].
  - injection Hlen as Hlen. cbn [map map2 In]. rewrite (IH td Hlen).
    unfold fdiv at 1. destruct (Req_dec_T d 0) as [Hz | Hnz]; cbn [fabs lift1].
    + split; [intros _; now left | intros _; now left].
    + split.
      * intros [Hbad | Hex]; [discriminate | now right].
      * inversion 1; subst; [contradiction | now right].
Qed.

(** X25.  On two non-empty arrays of equal length [MAPE] is finite
    exactly when no actual value is zero: a single zero makes the whole
    mean non-finite, the division is not guarded. *)
Theorem mape_finite_iff_no_zero (actual predicted : list R) :
  actual <> [] ->
  length actual = length predicted ->
  exists m,
    MetricsCalculator.calculate_prediction_metrics actual predicted = Ok m /\
    (MetricsCalculator.MAPE m <> None <->
     Forall (fun x => x <> 0) actual).
Proof.
  intros Hne Hlen.
  destruct (prediction_metrics_explicit actual predicted Hlen)
    as [m [Hrun [_ [_ [_ [Hmape _]]]]]].
  exists m. split; [exact Hrun |]. rewrite Hmape.
  set (ratios := map fabs
                   (map2 fdiv (map (@Some R) (map2 Rminus actual predicted))
                         (map (@Some R) (map Rabs actual)))).
  assert (Hrne : ratios <> []).
  { intros Hnil. apply (f_equal (@length fval)) in Hnil.
    unfold ratios in Hnil.
    rewrite length_map, map2_length_same, !length_map, map2_length_same
      in Hnil by (rewrite ?length_map; rewrite ?map2_length_same; auto).
    destruct actual; [congruence | discriminate]. }
  assert (Hex : Exists (fun d => d = 0) (map Rabs actual)
                <-> Exists (fun x => x = 0) actual).
  { rewrite Exists_map. split; intros H; eapply Exists_impl; try exact H;
      cbn; intros a Ha.
    - destruct (Req_dec_T a 0) as [Hz | Hnz]; [exact Hz |].
      exfalso. now apply (Rabs_no_R0 a).
    - subst. apply Rabs_R0. }
  assert (Hnone : fmul (np_mean ratios) (Some 100) = None
                  <-> Exists (fun x => x = 0) actual).
  { rewrite <- Hex.
    rewrite <- (ratios_none_iff (map2 Rminus actual predicted)
                                (map Rabs actual))
      by (rewrite length_map; now apply map2_length_same).
    fold ratios. rewrite <- (np_mean_none_iff ratios Hrne).
    destruct (np_mean ratios); cbn; split; congruence. }
  rewrite Forall_Exists_neg, <- Hnone. reflexivity.
Qed.

Lemma mape_finite_iff_no_zero_witness :
  [100; 110] <> [] /\
  length [100; 110] = length [101; 108] /\
  exists m,
    MetricsCalculator.calculate_prediction_metrics [100; 110] [101; 108]
    = Ok m /\
    (MetricsCalculator.MAPE m <> None <->
     Forall (fun x => x <> 0) [100; 110]).
Proof.
  assert (Hne : [100; 110] <> []) by discriminate.
  assert (Hlen : length [100; 110] = length [101; 108]) by reflexivity.
  split; [exact Hne |]. split; [exact Hlen |].
  exact (mape_finite_iff_no_zero [100; 110] [101; 108] Hne Hlen).
Defined.

Lemma mean_bool_range (bs : list bool) :
  bs <> [] ->
  exists v, np_mean_bool bs = Some v /\ 0 <= v <= 1.
Proof.
  intros Hne. unfold np_mean_bool.
  replace (map (fun b : bool => if b then Some 1 else Some 0) bs)
    with (map (@Some R) (map (fun b : bool => if b then 1 else 0) bs))
    by (rewrite map_map; apply map_ext; intros []; reflexivity).
  rewrite np_mean_some by (destruct bs; [congruence | discriminate]).
  rewrite length_map. eexists. split; [reflexivity |].
  assert (Hsum : 0 <= Rsum (map (fun b : bool => if b then 1 else 0) bs)
                 <= INR (length bs)).
  { clear Hne. unfold Rsum. induction bs as [| b t IH]; [cbn; lra |].
    change (length (b :: t)) with (S (length t)). rewrite S_INR.
    cbn [map fold_right]. destruct b; lra. }
  assert (Hn : 0 < INR (length bs)).
  { apply lt_0_INR. destruct bs; [congruence | cbn; lia]. }
  assert (Hinv : 0 < / INR (length bs)) by now apply Rinv_0_lt_compat.
  split.
  - apply Rmult_le_pos; lra.
  - apply (Rmult_le_reg_r (INR (length bs))); [exact Hn |].
    unfold Rdiv. rewrite Rmult_assoc, Rinv_l by lra. lra.
Qed.

Lemma directions_length (actual predicted : list R) :
  length actual = length predicted ->
  length (map2 feqb (map fsign (np_diff (map (@Some R) actual)))
                (map fsign (np_diff (map (@Some R) predicted))))
  = (length actual - 1)%nat.
Proof.
  intros Hlen. rewrite map2_length_same;
    rewrite !length_map, !np_diff_length, !length_map; [reflexivity |].
  now rewrite Hlen.
Qed.

(** X26.  On arrays of equal length the direction accuracy is a
    percentage between 0 and 100 as soon as there are two points, and it
    is non-finite below two points, where there is no difference to
    compare. *)
Theorem direction_accuracy_range (actual predicted : list R) :
  length actual = length predicted ->
  exists m,
    MetricsCalculator.calculate_prediction_metrics actual predicted = Ok m /\
    ((2 <= length actual)%nat ->
     exists v, MetricsCalculator.Direction_Accuracy m = Some v /\
               0 <= v <= 100) /\
    ((length actual <= 1)%nat ->
     MetricsCalculator.Direction_Accuracy m = None).
Proof.
  intros Hlen.
  destruct (prediction_metrics_explicit actual predicted Hlen)
    as [m [Hrun [_ [_ [_ [_ [_ Hda]]]]]]].
  exists m. split; [exact Hrun |]. rewrite Hda.
  pose proof (directions_length actual predicted Hlen) as Hdl.
  set (same := map2 feqb (map fsign (np_diff (map (@Some R) actual)))
                    (map fsign (np_diff (map (@Some R) predicted)))) in *.
  split.
  - intros Hn.
    assert (Hne : same <> [])
      by (intros Hnil; rewrite Hnil in Hdl; cbn in Hdl; lia).
    destruct (mean_bool_range same Hne) as [v [Hv Hrange]].
    rewrite Hv. cbn. eexists. split; [reflexivity | lra].
  - intros Hn. assert (Hnil : same = []).
    { apply length_zero_iff_nil. lia. }
    rewrite Hnil. unfold np_mean_bool, np_mean. cbn.
    destruct (Req_dec_T 0 0); [reflexivity | congruence].
Qed.

Lemma direction_accuracy_range_witness :
  length [100; 110; 105] = length [101; 108; 109] /\
  exists m,
    MetricsCalculator.calculate_prediction_metrics
      [100; 110; 105] [101; 108; 109] = Ok m /\
    ((2 <= length [100; 110; 105])%nat ->
     exists v, MetricsCalculator.Direction_Accuracy m = Some v /\
               0 <= v <= 100) /\
    ((length [100; 110; 105] <= 1)%nat ->
     MetricsCalculator.Direction_Accuracy m = None).
Proof.
  split; [reflexivity |].
  apply (direction_accuracy_range [100; 110; 105] [101; 108; 109]).
  reflexivity.
Defined.

(** X27.  Empty arrays are not rejected by the prediction metrics: no
    exception is raised and all six entries of the returned dictionary are
    non-finite. *)
Theorem prediction_metrics_empty :
  exists m,
    MetricsCalculator.calculate_prediction_metrics [] [] = Ok m /\
    MetricsCalculator.MSE m = None /\
    MetricsCalculator.RMSE m = None /\
    MetricsCalculator.MAE m = None /\
    MetricsCalculator.MAPE m = None /\
    MetricsCalculator.R2 m = None /\
    MetricsCalculator.Direction_Accuracy m = None.
Proof.
  eexists. split; [reflexivity |].
  cbn. destruct (Req_dec_T 0 0); [| congruence].
  cbn. repeat split; reflexivity.
Qed.

(** ** The risk metrics *)

(** X28.  A confidence level above 1 is rejected whatever the return
    series: the percentile asked of numpy is then negative and
    [ValueError] is raised. *)
Theorem risk_metrics_level_out_of_range (returns : list R)
  (confidence_level : R) :
  1 < confidence_level ->
  MetricsCalculator.calculate_risk_metrics returns confidence_level
  = Raise ValueError.
Proof.
  intros Hq. unfold MetricsCalculator.calculate_risk_metrics, np_percentile.
  cbv zeta. unfold Rleb.
  destruct (Rle_dec 0 ((1 - confidence_level) * 100 / 100)) as [H0 | H0];
    destruct (Rle_dec ((1 - confidence_level) * 100 / 100) 1) as [H1 | H1];
    cbn [andb bind]; try reflexivity.
  exfalso. lra.
Qed.

Lemma risk_metrics_level_out_of_range_witness :
  1 < 95 /\
  MetricsCalculator.calculate_risk_metrics [0.01; -0.02] 95
  = Raise ValueError.
Proof.
  assert (Hq : 1 < 95) by lra.
  split; [exact Hq |].
  exact (risk_metrics_level_out_of_range [0.01; -0.02] 95 Hq).
Defined.

Lemma series_max_ge (xs : list R) (x : R) :
  In x xs -> x <= series_max xs.
Proof.
  destruct xs as [| a t]; [intros [] |]. cbn [series_max].
  induction t as [| b t IH]; cbn [fold_right In].
  - intros [-> | []]. lra.
  - intros Hin. pose proof (Rmax_l b (fold_right Rmax a t)) as Hl.
    pose proof (Rmax_r b (fold_right Rmax a t)) as Hr.
    destruct Hin as [-> | [-> | Hin]].
    + assert (x <= fold_right Rmax x t) by (apply IH; now left). lra.
    + lra.
    + assert (x <= fold_right Rmax a t) by (apply IH; now right). lra.
Qed.

(** For a level in [[0, 1]] the percentile of a non-empty series is
    finite and lies between two of its elements. *)
Lemma percentile_between_elements (xs : list R) (q : R) :
  xs <> [] ->
  0 <= q <= 1 ->
  exists var lo hi,
    np_percentile xs ((1 - q) * 100) = Ok (Some var) /\
    In lo xs /\ In hi xs /\ lo <= var <= hi.
Proof.
  intros Hne Hq. destruct xs as [| x0 t]; [congruence |].
  unfold np_percentile.
  assert (H0 : Rleb 0 ((1 - q) * 100 / 100) = true) by (apply Rleb_true; lra).
  assert (H1 : Rleb ((1 - q) * 100 / 100) 1 = true) by (apply Rleb_true; lra).
  rewrite H0, H1. cbn [andb].
  set (n := length (x0 :: t)).
  set (virtual_index := (INR n - 1) * ((1 - q) * 100 / 100)).
  set (sorted := sort (x0 :: t)).
  assert (Hn : (1 <= n)%nat) by (unfold n; cbn; lia).
  assert (Hvirt : 0 <= virtual_index).
  { unfold virtual_index. apply Rmult_le_pos; [| lra].
    assert (1 <= INR n)
      by (replace 1 with (INR 1) by reflexivity; apply le_INR; exact Hn).
    lra. }
  destruct (base_Int_part virtual_index) as [Hfloor Hfrac].
  set (previous := Nat.min (Z.to_nat (Int_part virtual_index)) (n - 1)).
  set (next := Nat.min (Z.to_nat (Int_part virtual_index) + 1) (n - 1)).
  assert (Hlen : length sorted = n) by (unfold sorted; apply sort_length).
  exists (lerp (nth previous sorted x0) (nth next sorted x0)
               (virtual_index - IZR (Int_part virtual_index))).
  exists (nth previous sorted x0), (nth next sorted x0).
  split; [reflexivity |].
  split.
  { apply (sort_In _ (x0 :: t)). fold sorted. apply nth_In. rewrite Hlen.
    unfold previous. lia. }
  split.
  { apply (sort_In _ (x0 :: t)). fold sorted. apply nth_In. rewrite Hlen.
    unfold next. lia. }
  unfold lerp.
  assert (Hord : nth previous sorted x0 <= nth next sorted x0).
  { apply sorted_nth_le; [apply sort_sorted |]. rewrite Hlen.
    unfold previous, next. lia. }
  split; nra.
Qed.

(** X29.  For a non-empty series of finite returns (no [nan]) and a
    confidence level in [[0, 1]], [VaR] is finite and lies within the
    range of the series: [min <= VaR <= max]. *)
Theorem var_within_range (ys : list R) (confidence_level : R) :
  ys <> [] ->
  0 <= confidence_level <= 1 ->
  exists m var,
    ArraysWithNaN.calculate_risk_metrics (map (@Some R) ys) confidence_level
    = Ok m /\
    MetricsCalculator.VaR m = Some var /\
    MetricsCalculator.series_min ys <= var <= series_max ys.
Proof.
  intros Hne Hq.
  destruct (percentile_between_elements ys confidence_level Hne Hq)
    as [var [lo [hi [Hvar [Hlo [Hhi [Hle Hge]]]]]]].
  unfold ArraysWithNaN.calculate_risk_metrics,
    ArraysWithNaN.np_percentile_nan.
  rewrite finite_values_some, Hvar. cbn [bind].
  eexists. exists var. split; [reflexivity |].
  cbn [MetricsCalculator.VaR]. split; [reflexivity |].
  pose proof (series_min_le ys lo Hlo).
  pose proof (series_max_ge ys hi Hhi). lra.
Qed.

Lemma var_within_range_witness :
  [0.01; -0.02; 0.03] <> [] /\
  0 <= 0.95 <= 1 /\
  exists m var,
    ArraysWithNaN.calculate_risk_metrics
      (map (@Some R) [0.01; -0.02; 0.03]) 0.95 = Ok m /\
    MetricsCalculator.VaR m = Some var /\
    MetricsCalculator.series_min [0.01; -0.02; 0.03] <= var
    <= series_max [0.01; -0.02; 0.03].
Proof.
  assert (Hne : [0.01; -0.02; 0.03] <> []) by discriminate.
  assert (Hq : 0 <= 0.95 <= 1) by lra.
  split; [exact Hne |]. split; [exact Hq |].
  exact (var_within_range [0.01; -0.02; 0.03] 0.95 Hne Hq).
Defined.

Lemma percentile_defined (xs : list R) (q : R) :
  xs <> [] ->
  0 <= q <= 1 -> exists var, np_percentile xs ((1 - q) * 100) = Ok var.
Proof.
  intros Hne Hq. unfold np_percentile.
  assert (H0 : Rleb 0 ((1 - q) * 100 / 100) = true) by (apply Rleb_true; lra).
  assert (H1 : Rleb ((1 - q) * 100 / 100) 1 = true) by (apply Rleb_true; lra).
  rewrite H0, H1. cbn [andb].
  destruct xs; [congruence | eexists; reflexivity].
Qed.

(** X30.  One-sided volatilities vanish on one-sided series: for a
    non-empty return series and a confidence level in [[0, 1]], the
    downside volatility is exactly 0 when no return is negative, and the
    upside volatility is exactly 0 when no return is positive. *)
Theorem one_sided_volatility (returns : list R) (confidence_level : R) :
  returns <> [] ->
  0 <= confidence_level <= 1 ->
  exists m,
    MetricsCalculator.calculate_risk_metrics returns confidence_level = Ok m /\
    (Forall (fun r => 0 <= r) returns ->
     MetricsCalculator.Downside_Volatility m = Some 0) /\
    (Forall (fun r => r <= 0) returns ->
     MetricsCalculator.Upside_Volatility m = Some 0).
Proof.
  intros Hne Hq.
  destruct (percentile_defined returns confidence_level Hne Hq)
    as [var Hvar].
  unfold MetricsCalculator.calculate_risk_metrics. rewrite Hvar. cbn [bind].
  eexists. split; [reflexivity |].
  cbn [MetricsCalculator.Downside_Volatility
       MetricsCalculator.Upside_Volatility].
  rewrite !np_where_finite. split; intros Hall.
  - replace (map (fun x => if Rltb x 0 then x else 0) returns)
      with (map (fun _ : R => 0) returns).
    + rewrite np_std_zeros by exact Hne. cbn. f_equal. lra.
    + apply map_ext_in. intros x Hx. rewrite Forall_forall in Hall.
      specialize (Hall x Hx). unfold Rltb.
      destruct (Rlt_dec x 0); [lra | reflexivity].
  - replace (map (fun x => if Rltb 0 x then x else 0) returns)
      with (map (fun _ : R => 0) returns).
    + rewrite np_std_zeros by exact Hne. cbn. f_equal. lra.
    + apply map_ext_in. intros x Hx. rewrite Forall_forall in Hall.
      specialize (Hall x Hx). unfold Rltb.
      destruct (Rlt_dec 0 x); [lra | reflexivity].
Qed.

Lemma one_sided_volatility_witness :
  [0.01; 0; 0.03] <> [] /\
  0 <= 0.95 <= 1 /\
  exists m,
    MetricsCalculator.calculate_risk_metrics [0.01; 0; 0.03] 0.95 = Ok m /\
    (Forall (fun r => 0 <= r) [0.01; 0; 0.03] ->
     MetricsCalculator.Downside_Volatility m = Some 0) /\
    (Forall (fun r => r <= 0) [0.01; 0; 0.03] ->
     MetricsCalculator.Upside_Volatility m = Some 0).
Proof.
  assert (Hne : [0.01; 0; 0.03] <> []) by discriminate.
  assert (Hq : 0 <= 0.95 <= 1) by lra.
  split; [exact Hne |]. split; [exact Hq |].
  exact (one_sided_volatility [0.01; 0; 0.03] 0.95 Hne Hq).
Defined.
